(** * Bearer-token validation of the PayForward backend

    A shallow embedding of [backend/internal/auth/keycloak.go]: the key
    cache of [KeycloakAuth], [refreshPublicKeys], [getPublicKey],
    [ValidateToken], [validateAudience], [ExtractBearerToken] and
    [HasRole], together with the properties the specification states about
    them.

    Go strings are byte sequences and are modelled by [string]; Go maps by
    [gmap]; Go's [(value, error)] results by a sum with the error on the
    left.  Code that reads or writes the validator or talks to the network
    runs in a state-and-error monad over [World]. *)

From Stdlib Require Import ZArith Ascii String List Bool Lia.
From stdpp Require Import base option gmap strings list.

Local Open Scope string_scope.
Local Open Scope Z_scope.

(** A Go [interface{}] holding a decoded JSON value, as far as the code
    tells the cases apart: only the type assertion [.(string)] is used. *)
Inductive any : Type :=
  | AnyString (s : string)
  | AnyNumber (n : Z)
  | AnyBool (b : bool)
  | AnyNil
  | AnyComposite.

(** ** Errors

    One constructor per error value the code can return; the [cause]
    argument is the error wrapped by [%w]. *)
#[warnings="-register-all"]
Inductive error : Type :=
  | ErrHTTP                                   (* err of http.Get *)
  | ErrJSON                                   (* err of json Decoder.Decode *)
  | ErrBase64                                 (* err of base64 DecodeString *)
  | ErrFetchJWKS (cause : error)              (* "failed to fetch JWKS: %w" *)
  | ErrDecodeJWKS (cause : error)             (* "failed to decode JWKS: %w" *)
  | ErrRefreshKeys (cause : error)            (* "failed to refresh keys: %w" *)
  | ErrKidNotFound (kid : string)             (* "key with kid %s not found" *)
  | ErrUnexpectedSigningMethod (alg : option any) (* "unexpected signing method: %v" *)
  | ErrKidMissing                             (* "kid not found in token header" *)
  | ErrTokenMalformed                         (* jwt.ErrTokenMalformed *)
  | ErrTokenUnverifiable (cause : error)      (* jwt: "error while executing keyfunc" *)
  | ErrTokenSignatureInvalid                  (* jwt.ErrTokenSignatureInvalid *)
  | ErrTokenExpired                           (* jwt.ErrTokenExpired *)
  | ErrTokenNotValidYet                       (* jwt.ErrTokenNotValidYet *)
  | ErrTokenInvalidClaims (causes : list error) (* jwt.ErrTokenInvalidClaims *)
  | ErrParseToken (cause : error)             (* "failed to parse token: %w" *)
  | ErrInvalidToken                           (* "invalid token" *)
  | ErrInvalidIssuer (expected got : string)  (* "invalid issuer: expected %s, got %s" *)
  | ErrInvalidAudience                        (* "invalid audience" *)
  | ErrAuthHeaderNotFound                     (* "authorization header not found" *)
  | ErrAuthHeaderFormat.                      (* "invalid authorization header format" *)

(** A Go result [(A, error)]. *)
Definition result (A : Type) : Type := (error + A)%type.

Definition is_ok {A} (r : result A) : bool :=
  match r with inr _ => true | inl _ => false end.

(** ** Data model *)

(** [rsa.PublicKey]: modulus [N] (a [*big.Int]) and exponent [E] (an [int]). *)
Record PublicKey : Type := mkPublicKey { pk_N : Z; pk_E : Z }.

Record JWK : Type := mkJWK {
  Kid : string;
  Kty : string;
  Alg : string;
  Use : string;
  N : string;
  E : string
}.

Record JWKSResponse : Type := mkJWKS { Keys : list JWK }.

(** [jwt.RegisteredClaims]; a [*jwt.NumericDate] is an optional instant. *)
Record RegisteredClaims : Type := mkRegistered {
  Issuer : string;
  Subject : string;
  Audience : list string;
  ExpiresAt : option Z;
  NotBefore : option Z;
  IssuedAt : option Z;
  ID : string
}.

Record KeycloakClaims : Type := mkClaims {
  Email : string;
  EmailVerified : bool;
  PreferredUsername : string;
  Name : string;
  GivenName : string;
  FamilyName : string;
  RealmAccess_Roles : list string;
  ResourceAccess : gmap string (list string);
  Registered : RegisteredClaims
}.

Record KeycloakAuth : Type := mkKeycloakAuth {
  realm : string;
  serverURL : string;
  clientID : string;
  clientSecret : string;
  publicKeys : gmap string PublicKey
}.

Module http.

(** [http.Request], reduced to the field the code reads: [http.Header]
    is a [map[string][]string] whose keys are in canonical form. *)
Record Request : Type := mkRequest { Header : gmap string (list string) }.

(** [http.Response], reduced to the status code and the body. *)
Record Response : Type := mkResponse { StatusCode : Z; Body : string }.

Definition StatusOK : Z := 200.

End http.

(** ** Library functions used by the pure part *)

Module strings.

(** [strings.Split s sep] for a one-byte separator, the only way the code
    calls it: the pieces of [s] between consecutive occurrences of
    [sep]; always at least one piece. *)
Fixpoint Split (s : string) (sep : ascii) : list string :=
  match s with
  | EmptyString => [EmptyString]
  | String c s' =>
      if Ascii.eqb c sep then EmptyString :: Split s' sep
      else match Split s' sep with
           | p :: ps => String c p :: ps
           | [] => [String c EmptyString]
           end
  end.

(** [strings.IndexByte s c >= 0]. *)
Fixpoint ContainsByte (s : string) (c : ascii) : bool :=
  match s with
  | EmptyString => false
  | String d s' => Ascii.eqb d c || ContainsByte s' c
  end.

End strings.

Module textproto.

Definition is_lower (c : ascii) : bool :=
  (97 <=? Z.of_nat (nat_of_ascii c)) && (Z.of_nat (nat_of_ascii c) <=? 122).
Definition is_upper (c : ascii) : bool :=
  (65 <=? Z.of_nat (nat_of_ascii c)) && (Z.of_nat (nat_of_ascii c) <=? 90).
Definition is_digit (c : ascii) : bool :=
  (48 <=? Z.of_nat (nat_of_ascii c)) && (Z.of_nat (nat_of_ascii c) <=? 57).

(** [validHeaderFieldByte]: the token characters of RFC 7230. *)
Definition validHeaderFieldByte (c : ascii) : bool :=
  is_lower c || is_upper c || is_digit c
  || strings.ContainsByte "!#$%&'*+-.^_`|~" c.

Definition toLower : nat := 32.

Fixpoint canonical (upper : bool) (s : string) : string :=
  match s with
  | EmptyString => EmptyString
  | String c s' =>
      let c' :=
        if upper && is_lower c then ascii_of_nat (nat_of_ascii c - toLower)
        else if negb upper && is_upper c then ascii_of_nat (nat_of_ascii c + toLower)
        else c in
      String c' (canonical (Ascii.eqb c' "-") s')
  end.

Fixpoint all_valid (s : string) : bool :=
  match s with
  | EmptyString => true
  | String c s' => validHeaderFieldByte c && all_valid s'
  end.

(** [textproto.CanonicalMIMEHeaderKey]: a key with a byte that is not a
    token character is returned unchanged; otherwise the first letter and
    every letter after a dash are upper-cased, the others lower-cased. *)
Definition CanonicalMIMEHeaderKey (s : string) : string :=
  if all_valid s then canonical true s else s.

End textproto.

(** [(http.Header).Get]: the first value stored under the canonical form of
    [key], or the empty string. *)
Definition Header_Get (h : gmap string (list string)) (key : string) : string :=
  match h !! textproto.CanonicalMIMEHeaderKey key with
  | Some (v :: _) => v
  | _ => EmptyString
  end.

(** ** The pure operations of [KeycloakAuth] *)

(** The [for _, aud := range audience] loop of [validateAudience]. *)
Fixpoint validateAudience (ka : KeycloakAuth) (audience : list string) : bool :=
  match audience with
  | [] => false
  | aud :: rest =>
      if bool_decide (aud = clientID ka) || bool_decide (aud = "account")
      then true
      else validateAudience ka rest
  end.

Definition ExtractBearerToken (ka : KeycloakAuth) (r : http.Request) : result string :=
  let authHeader := Header_Get (http.Header r) "Authorization" in
  if bool_decide (authHeader = "") then inl ErrAuthHeaderNotFound
  else
    let parts := strings.Split authHeader " " in
    match parts with
    | [p0; p1] =>
        if bool_decide (p0 ≠ "Bearer") then inl ErrAuthHeaderFormat
        else inr p1
    | _ => inl ErrAuthHeaderFormat
    end.

(** The [for _, r := range roles { if r == role { return true } }] loops of
    [HasRole]. *)
Fixpoint role_in (roles : list string) (role : string) : bool :=
  match roles with
  | [] => false
  | r :: rest => if bool_decide (r = role) then true else role_in rest role
  end.

Definition HasRole (ka : KeycloakAuth) (claims : KeycloakClaims) (role : string) : bool :=
  if role_in (RealmAccess_Roles claims) role then true
  else
    match ResourceAccess claims !! clientID ka with
    | Some clientAccess => if role_in clientAccess role then true else false
    | None => false
    end.

(** ** The JWT library, as far as [ValidateToken] uses it *)

Module jwt.

(** The signing-method types of golang-jwt.  [token.Method] is one of
    them; the type assertion of [ValidateToken] accepts the first only
    (RS256, RS384, RS512).  [SigningMethodRSAPSS] (PS256, ...) is a
    distinct Go type. *)
Inductive SigningMethod : Type :=
  | SigningMethodRSA (alg : string)
  | SigningMethodRSAPSS (alg : string)
  | SigningMethodHMAC (alg : string)
  | SigningMethodECDSA (alg : string)
  | SigningMethodEd25519
  | signingMethodNone.

(** [jwt.Token] after the unverified parse. *)
Record Token : Type := mkToken {
  Raw : string;
  Method : SigningMethod;
  Header : gmap string any;
  Claims : KeycloakClaims;
  Signature : list Byte.byte;
  Valid : bool
}.

Definition set_Valid (t : Token) : Token :=
  {| Raw := Raw t; Method := Method t; Header := Header t;
     Claims := Claims t; Signature := Signature t; Valid := true |}.

(** [Validator.Validate] with the default options (no leeway, no expected
    issuer, audience or subject, issued-at not verified): [exp], when
    present, must be after [now]; [nbf], when present, must not be after
    [now].  All failures are collected. *)
Definition verifyExpiresAt (c : RegisteredClaims) (now : Z) : list error :=
  match ExpiresAt c with
  | None => []
  | Some exp => if now <? exp then [] else [ErrTokenExpired]
  end.

Definition verifyNotBefore (c : RegisteredClaims) (now : Z) : list error :=
  match NotBefore c with
  | None => []
  | Some nbf => if now <? nbf then [ErrTokenNotValidYet] else []
  end.

Definition Validate (c : RegisteredClaims) (now : Z) : list error :=
  verifyExpiresAt c now ++ verifyNotBefore c now.

End jwt.

(** ** The world the validator runs in

    [ka] is the receiver; [now] is the wall clock read by the claims
    validator; [requests] lists the URLs of the HTTP GETs issued so far and
    [verified] the signature checks performed so far (newest first): both
    are ghost histories, never read by the code. *)
Record World : Type := mkWorld {
  ka : KeycloakAuth;
  now : Z;
  requests : list string;
  verified : list (jwt.SigningMethod * PublicKey)
}.

Definition M (A : Type) : Type := World -> result A * World.

#[export] Instance M_ret : MRet M := fun A (a : A) w => (inr a, w).

#[export] Instance M_bind : MBind M := fun A B (f : A -> M B) (m : M A) w =>
  match m w with
  | (inr a, w') => f a w'
  | (inl e, w') => (inl e, w')
  end.

Definition fail {A} (e : error) : M A := fun w => (inl e, w).

(** [wrap_err h m]: the [if err != nil { return nil, h err }] idiom. *)
Definition wrap_err {A} (h : error -> error) (m : M A) : M A := fun w =>
  match m w with
  | (inl e, w') => (inl (h e), w')
  | r => r
  end.

Definition lift {A} (r : result A) : M A := fun w => (r, w).

Definition get_ka : M KeycloakAuth := fun w => (inr (ka w), w).
Definition get_now : M Z := fun w => (inr (now w), w).

(** [NewKeycloakAuth] returns a validator with an empty key map; the two
    goroutines it starts call [refreshPublicKeys] later on. *)
Definition NewKeycloakAuth (serverURL realm clientID clientSecret : string) : KeycloakAuth :=
  {| realm := realm; serverURL := serverURL; clientID := clientID;
     clientSecret := clientSecret; publicKeys := ∅ |}.

Definition set_publicKeys (m : gmap string PublicKey) (k : KeycloakAuth) : KeycloakAuth :=
  {| realm := realm k; serverURL := serverURL k; clientID := clientID k;
     clientSecret := clientSecret k; publicKeys := m |}.

Definition put_publicKeys (m : gmap string PublicKey) : M unit := fun w =>
  (inr tt, {| ka := set_publicKeys m (ka w); now := now w;
              requests := requests w; verified := verified w |}).

Definition log_request (url : string) (w : World) : World :=
  {| ka := ka w; now := now w; requests := url :: requests w; verified := verified w |}.

Definition log_verify (m : jwt.SigningMethod) (key : PublicKey) (w : World) : World :=
  {| ka := ka w; now := now w; requests := requests w; verified := (m, key) :: verified w |}.

(** [big.Int.SetBytes]: the bytes as a big-endian unsigned integer. *)
Definition SetBytes (bs : list Byte.byte) : Z :=
  fold_left (fun acc b => acc * 256 + Z.of_N (Byte.to_N b)) bs 0.

(** [int(x.Int64())] for a non-negative [x]: the low 64 bits, read as a
    two's complement [int64] ([int] is 64 bits wide). *)
Definition Int64 (x : Z) : Z :=
  let low := x mod 2 ^ 64 in
  if low <? 2 ^ 63 then low else low - 2 ^ 64.

(** ** The life of the process

    The operations that touch the validator, in the order they take
    effect: a refresh (timer or start-up), a request being validated, a
    key lookup, and the passing of time. *)
Inductive Op : Type :=
  | OpRefresh
  | OpValidate (tokenString : string)
  | OpGetKey (kid : string)
  | OpClock (t : Z).

(** ** Concrete scenarios

    The validator, keys, tokens and provider answers of the scenarios in
    section 8 of the specification, with stand-ins for the codecs and for
    the signature check: a token or a JWKS body is known by its name, and
    a signature verifies under a key when its bytes spell the modulus. *)
Module Scenario.

Definition key1 : PublicKey := {| pk_N := 161; pk_E := 65537 |}.
Definition key2 : PublicKey := {| pk_N := 255; pk_E := 65537 |}.

Definition validator : KeycloakAuth :=
  set_publicKeys {[ "k1" := key1 ]}
    (NewKeycloakAuth "https://id.example.org" "payforward" "payforward-app" "secret").

Definition world : World :=
  {| ka := validator; now := 1000; requests := []; verified := [] |}.

Definition claims (iss : string) (aud : list string) : KeycloakClaims :=
  {| Email := "alice@example.org"; EmailVerified := true;
     PreferredUsername := "alice"; Name := "Alice A"; GivenName := "Alice";
     FamilyName := "A"; RealmAccess_Roles := ["user"];
     ResourceAccess := {[ "payforward-app" := ["editor"]; "other-app" := ["admin"] ]};
     Registered :=
       {| Issuer := iss; Subject := "alice-id"; Audience := aud;
          ExpiresAt := Some 4600; NotBefore := Some 900; IssuedAt := Some 1000;
          ID := "jti-1" |} |}.

Definition issuer : string := "https://id.example.org/realms/payforward".

Definition token (raw : string) (m : jwt.SigningMethod) (alg kid : string)
    (sig : list Byte.byte) (c : KeycloakClaims) : jwt.Token :=
  {| jwt.Raw := raw; jwt.Method := m;
     jwt.Header := {[ "alg" := AnyString alg; "kid" := AnyString kid;
                      "typ" := AnyString "JWT" ]};
     jwt.Claims := c; jwt.Signature := sig; jwt.Valid := false |}.

Definition tok_app : jwt.Token :=
  token "rs256-k1.app.a1" (jwt.SigningMethodRSA "RS256") "RS256" "k1"
        [Byte.xa1] (claims issuer ["payforward-app"]).
Definition tok_other_app : jwt.Token :=
  token "rs256-k1.other-app.a1" (jwt.SigningMethodRSA "RS256") "RS256" "k1"
        [Byte.xa1] (claims issuer ["other-app"]).
(** The issuer with a trailing slash. *)
Definition tok_slash : jwt.Token :=
  token "rs256-k1.slash.a1" (jwt.SigningMethodRSA "RS256") "RS256" "k1"
        [Byte.xa1] (claims (issuer ++ "/") ["payforward-app"]).
Definition tok_ps256 : jwt.Token :=
  token "ps256-k1.app.a1" (jwt.SigningMethodRSAPSS "PS256") "PS256" "k1"
        [Byte.xa1] (claims issuer ["payforward-app"]).
Definition tok_hs256 : jwt.Token :=
  token "hs256-k1.app.a1" (jwt.SigningMethodHMAC "HS256") "HS256" "k1"
        [Byte.xa1] (claims issuer ["payforward-app"]).
Definition tok_k2 : jwt.Token :=
  token "rs256-k2.app.ff" (jwt.SigningMethodRSA "RS256") "RS256" "k2"
        [Byte.xff] (claims issuer ["payforward-app"]).
Definition tok_hs256_k2 : jwt.Token :=
  token "hs256-k2.app.ff" (jwt.SigningMethodHMAC "HS256") "HS256" "k2"
        [Byte.xff] (claims issuer ["payforward-app"]).

Definition tokens : list (string * jwt.Token) :=
  map (fun t => (jwt.Raw t, t))
      [tok_app; tok_other_app; tok_slash; tok_ps256; tok_hs256; tok_k2; tok_hs256_k2].

Fixpoint assoc {A} (l : list (string * A)) (s : string) : option A :=
  match l with
  | [] => None
  | (k, v) :: rest => if bool_decide (k = s) then Some v else assoc rest s
  end.

Definition parse (s : string) : result jwt.Token :=
  match assoc tokens s with
  | Some t => inr t
  | None => inl ErrTokenMalformed
  end.

Definition verify (m : jwt.SigningMethod) (text : string)
    (sig : list Byte.byte) (key : PublicKey) : bool :=
  SetBytes sig =? pk_N key.

Definition jwk2 : JWK :=
  {| Kid := "k2"; Kty := "RSA"; Alg := "RS256"; Use := "sig"; N := "_w"; E := "AQAB" |}.
(** An entry whose modulus is not base64url. *)
Definition jwk3 : JWK :=
  {| Kid := "k3"; Kty := "RSA"; Alg := "RS256"; Use := "sig"; N := "!!"; E := "AQAB" |}.

Definition json (body : string) : result JWKSResponse :=
  match assoc [ ("{}", {| Keys := [] |});
                ("jwks:k2", {| Keys := [jwk2] |});
                ("jwks:k3,k2", {| Keys := [jwk3; jwk2] |}) ] body with
  | Some j => inr j
  | None => inl ErrJSON
  end.

Definition base64 (s : string) : result (list Byte.byte) :=
  match assoc [ ("_w", [Byte.xff]); ("AQAB", [Byte.x01; Byte.x00; Byte.x01]) ] s with
  | Some bs => inr bs
  | None => inl ErrBase64
  end.

(** Providers: unreachable, or answering every request alike. *)
Definition down : nat -> string -> result http.Response :=
  fun _ _ => inl ErrHTTP.
Definition serve (status : Z) (body : string) : nat -> string -> result http.Response :=
  fun _ _ => inr {| http.StatusCode := status; http.Body := body |}.

Definition certs : string :=
  "https://id.example.org/realms/payforward/protocol/openid-connect/certs".

(** A later stretch of the process: a request with a token of a new key,
    a timer refresh, a thousand seconds passing, a lookup of an unknown
    identifier. *)
Definition later : list Op :=
  [OpValidate "rs256-k2.app.ff"; OpRefresh; OpClock 2000; OpGetKey "k9"].

Definition two_headers : http.Request :=
  {| http.Header := {[ "Authorization" := ["Bearer abc"; "Bearer def"] ]} |}.
Definition one_header (v : string) : http.Request :=
  {| http.Header := {[ "Authorization" := [v] ]} |}.

End Scenario.

(** ** The HTTP side of the authentication middleware

    What [KeycloakAuthMiddleware] sees of a request and of a response
    writer, and the middleware plumbing of the [middleware] package. *)
Module middleware.

(** A value kept in a request context (an [interface{}]), as far as the
    middleware tells the cases apart: the type assertion to
    [*auth.KeycloakClaims] is the only one it makes. *)
Inductive value : Type :=
  | VString (s : string)
  | VClaims (claims : KeycloakClaims)
  | VOther.

(** A [context.Context] built by [context.WithValue] over a background
    context: the pairs added so far, newest first.  All the keys are of
    type [ContextKey], a string type. *)
Definition Context : Type := list (string * value).

Definition WithValue (ctx : Context) (key : string) (val : value) : Context :=
  (key, val) :: ctx.

(** [ctx.Value(key)]: the value of the innermost pair with that key. *)
Fixpoint Value (ctx : Context) (key : string) : option value :=
  match ctx with
  | [] => None
  | (k, v) :: parent => if bool_decide (k = key) then Some v else Value parent key
  end.

Definition UserIDKey : string := "userID".
Definition EmailKey : string := "email".

(** The request as the middleware reads it: the headers, the context,
    the method and the remote address. *)
Record Request : Type := mkRequest {
  Base : http.Request;
  Ctx : Context;
  Method : string;
  RemoteAddr : string
}.

Definition WithContext (r : Request) (ctx : Context) : Request :=
  {| Base := Base r; Ctx := ctx; Method := Method r; RemoteAddr := RemoteAddr r |}.

(** An [http.ResponseWriter]: the header map, the status and the headers
    sent by the first [WriteHeader] (none yet when [status] is [None]),
    and the body written so far. *)
Record ResponseWriter : Type := mkResponseWriter {
  header : gmap string (list string);
  status : option Z;
  sent : gmap string (list string);
  body : string
}.

(** [w.Header().Set(key, value)]. *)
Definition Header_Set (rw : ResponseWriter) (key val : string) : ResponseWriter :=
  {| header := <[textproto.CanonicalMIMEHeaderKey key := [val]]> (header rw);
     status := status rw; sent := sent rw; body := body rw |}.

(** [w.WriteHeader(code)]: the first call sends the status with the
    headers as they are; later calls change nothing. *)
Definition WriteHeader (rw : ResponseWriter) (code : Z) : ResponseWriter :=
  match status rw with
  | Some _ => rw
  | None => {| header := header rw; status := Some code;
               sent := header rw; body := body rw |}
  end.

(** [w.Write(b)]: sends status 200 first when no status was sent. *)
Definition Write (rw : ResponseWriter) (b : string) : ResponseWriter :=
  let rw := WriteHeader rw http.StatusOK in
  {| header := header rw; status := status rw; sent := sent rw;
     body := body rw ++ b |}.

Definition StatusUnauthorized : Z := 401.
Definition StatusForbidden : Z := 403.
Definition StatusTooManyRequests : Z := 429.
Definition MethodOptions : string := "OPTIONS".

(** The double quote, for the JSON text. *)
Definition dq : string := String "034"%char EmptyString.

Definition respondJSONError (rw : ResponseWriter) (code : Z) (message : string)
    : ResponseWriter :=
  let rw := Header_Set rw "Content-Type" "application/json" in
  let rw := WriteHeader rw code in
  Write rw ("{" ++ dq ++ "success" ++ dq ++ ":false," ++ dq ++ "error" ++ dq ++ ":"
            ++ dq ++ message ++ dq ++ "}").

(** What [log.Printf] has printed. *)
Inductive LogEntry : Type :=
  | LogTokenValidationFailed (err : error).

(** What a handler runs in: the world of the validator and the log. *)
Record Env : Type := mkEnv { world : World; logged : list LogEntry }.

(** [http.Handler]: [ServeHTTP(w, r)] acts on the response writer and on
    the environment. *)
Definition Handler : Type := Request -> ResponseWriter -> Env -> ResponseWriter * Env.

Definition Middleware : Type := Handler -> Handler.

(** The loop [for i := len(middlewares) - 1; i >= 0; i-- { h =
    middlewares[i](h) }] of [Chain], with [n] for [i + 1]. *)
Fixpoint Chain_loop (middlewares : list Middleware) (n : nat) (h : Handler) : Handler :=
  match n with
  | O => h
  | S i =>
      match middlewares !! i with
      | Some m => Chain_loop middlewares i (m h)
      | None => h
      end
  end.

Definition Chain (h : Handler) (middlewares : list Middleware) : Handler :=
  Chain_loop middlewares (length middlewares) h.

(** The loop of [CORS] over the allowed origins, leaving at the first
    match. *)
Fixpoint origin_allowed (allowedOrigins : list string) (origin : string) : bool :=
  match allowedOrigins with
  | [] => false
  | o :: rest =>
      if bool_decide (o = "*") || bool_decide (o = origin) then true
      else origin_allowed rest origin
  end.

Definition CORS (allowedOrigins : list string) : Middleware :=
  fun next r rw e =>
  let origin := Header_Get (http.Header (Base r)) "Origin" in
  let allowed := origin_allowed allowedOrigins origin in
  let rw := if allowed then Header_Set rw "Access-Control-Allow-Origin" origin else rw in
  let rw := Header_Set rw "Access-Control-Allow-Methods"
              "GET, POST, PUT, DELETE, OPTIONS, PATCH" in
  let rw := Header_Set rw "Access-Control-Allow-Headers"
              "Accept, Authorization, Content-Type, X-CSRF-Token, X-Requested-With" in
  let rw := Header_Set rw "Access-Control-Allow-Credentials" "true" in
  let rw := Header_Set rw "Access-Control-Max-Age" "86400" in
  if bool_decide (Method r = MethodOptions) then (WriteHeader rw http.StatusOK, e)
  else next r rw e.

(** *** The rate limiter

    Instants ([time.Time]) and durations ([time.Duration]) are counted in
    nanoseconds. *)
Definition Minute : Z := 60 * 1000000000.
Definition minDuration : Z := - 2 ^ 63.
Definition maxDuration : Z := 2 ^ 63 - 1.

(** [t.Sub(u)]: the difference, kept within the range of a duration. *)
Definition Sub (t u : Z) : Z :=
  let d := t - u in
  if d <? minDuration then minDuration
  else if maxDuration <? d then maxDuration
  else d.

(** [time.Since(u)] when [time.Now()] reads [t]. *)
Definition Since (t u : Z) : Z := Sub t u.

Record visitor : Type := mkVisitor { tokens : Z; lastReset : Z }.

(** The map holds pointers to the visitors; a visitor is reached through
    its entry only, so the entry stands for the visitor. *)
Record RateLimiter : Type := mkRateLimiter {
  visitors : gmap string visitor;
  limit : Z;
  window : Z
}.

(** [NewRateLimiter]; the goroutine it starts calls [cleanup] later on. *)
Definition NewRateLimiter (requestsPerMinute : Z) : RateLimiter :=
  {| visitors := ∅; limit := requestsPerMinute; window := Minute |}.

Definition set_visitors (vs : gmap string visitor) (rl : RateLimiter) : RateLimiter :=
  {| visitors := vs; limit := limit rl; window := window rl |}.

(** [cleanup]: [reading ip] is what [time.Now()] reads when the loop is at
    the entry of [ip]. *)
Definition cleanup (rl : RateLimiter) (reading : string -> Z) : RateLimiter :=
  set_visitors
    (filter (fun entry => ~ (10 * Minute < Since (reading entry.1) (lastReset entry.2)))
            (visitors rl))
    rl.

(** The readings of [time.Now()] during one [getVisitor], in the order
    the code takes them: for the new visitor, for [time.Since], for the
    reset. *)
Record Readings : Type := mkReadings { at_new : Z; at_since : Z; at_reset : Z }.

(** [getVisitor]: the visitor returned and the limiter afterwards. *)
Definition getVisitor (rl : RateLimiter) (ip : string) (t : Readings)
    : visitor * RateLimiter :=
  let '(v, rl) :=
    match visitors rl !! ip with
    | Some v => (v, rl)
    | None =>
        let v := {| tokens := limit rl; lastReset := at_new t |} in
        (v, set_visitors (<[ip := v]> (visitors rl)) rl)
    end in
  if window rl <? Since (at_since t) (lastReset v) then
    let v := {| tokens := limit rl; lastReset := at_reset t |} in
    (v, set_visitors (<[ip := v]> (visitors rl)) rl)
  else (v, rl).

Definition allow (rl : RateLimiter) (ip : string) (t : Readings) : bool * RateLimiter :=
  let '(v, rl) := getVisitor rl ip t in
  if 0 <? tokens v then
    (true,
     set_visitors (<[ip := {| tokens := tokens v - 1; lastReset := lastReset v |}]>
                     (visitors rl)) rl)
  else (false, rl).

(** The address [RateLimit] counts a request under. *)
Definition client_ip (r : Request) : string :=
  let ip := RemoteAddr r in
  let forwarded := Header_Get (http.Header (Base r)) "X-Forwarded-For" in
  if bool_decide (forwarded ≠ "") then
    match strings.Split forwarded "," with
    | p :: _ => p
    | [] => ip
    end
  else ip.

(** The handler [RateLimit] builds, with the limiter it closes over made
    explicit. *)
Definition RateLimit (next : Handler) (r : Request) (rw : ResponseWriter) (e : Env)
    (limiter : RateLimiter) (t : Readings) : ResponseWriter * Env * RateLimiter :=
  let ip := client_ip r in
  let '(ok, limiter) := allow limiter ip t in
  if negb ok then
    let rw := Header_Set rw "Content-Type" "application/json" in
    let rw := Header_Set rw "Retry-After" "60" in
    let rw := WriteHeader rw StatusTooManyRequests in
    (Write rw ("{" ++ dq ++ "success" ++ dq ++ ":false," ++ dq ++ "error" ++ dq ++ ":"
               ++ dq ++ "Rate limit exceeded. Please try again later." ++ dq ++ "}"),
     e, limiter)
  else (next r rw e, limiter).

(** A run of [allow] calls, with the answers in order. *)
Fixpoint allow_all (rl : RateLimiter) (calls : list (string * Readings))
    : list bool * RateLimiter :=
  match calls with
  | [] => ([], rl)
  | (ip, t) :: rest =>
      let '(ok, rl) := allow rl ip t in
      let '(oks, rl) := allow_all rl rest in
      (ok :: oks, rl)
  end.

(** How many calls of a run were for [ip], and how many of those were
    granted. *)
Fixpoint asked (ip : string) (calls : list (string * Readings)) : Z :=
  match calls with
  | [] => 0
  | (ip', _) :: rest => (if bool_decide (ip' = ip) then 1 else 0) + asked ip rest
  end.

Fixpoint granted (ip : string) (calls : list (string * Readings)) (oks : list bool) : Z :=
  match calls, oks with
  | (ip', _) :: rest, ok :: oks' =>
      (if bool_decide (ip' = ip) && ok then 1 else 0) + granted ip rest oks'
  | _, _ => 0
  end.

(** The readings of a call lie in the span of one window that starts at
    [start]. *)
Definition in_span (rl : RateLimiter) (start : Z) (t : Readings) : Prop :=
  (start <= at_new t <= start + window rl) /\
  (start <= at_since t <= start + window rl) /\
  (start <= at_reset t <= start + window rl).

(** What an address can still be granted while the readings stay in the
    span that starts at [start]: its tokens, and one more bucket if its
    bucket was last reset outside the span. *)
Definition budget (rl : RateLimiter) (ip : string) (start : Z) : Z :=
  match visitors rl !! ip with
  | None => Z.max (limit rl) 0
  | Some v =>
      if (start <=? lastReset v) && (lastReset v <=? start + window rl)
      then Z.max (tokens v) 0
      else Z.max (tokens v) 0 + Z.max (limit rl) 0
  end.

(** The claims [Authenticate] adds to the context of a request. *)
Definition authenticated (ctx : Context) (claims : KeycloakClaims) : Context :=
  let ctx := WithValue ctx UserIDKey (VString (Subject (Registered claims))) in
  let ctx := WithValue ctx EmailKey (VString (Email claims)) in
  WithValue ctx "keycloak_claims" (VClaims claims).

End middleware.

(** [GetUserInfo] fails with an error of a library, passed on as it is, or
    with its own "failed to get user info: status %d". *)
Inductive userinfo_error : Type :=
  | UserInfoErr (err : error)
  | UserInfoStatus (code : Z).

(** The header [GetUserInfo] puts on its request: a fresh header map with
    [Authorization] set. *)
Definition userinfo_header (accessToken : string) : gmap string (list string) :=
  <[textproto.CanonicalMIMEHeaderKey "Authorization" := ["Bearer " ++ accessToken]]> ∅.

(** ** Requests for the scenarios *)
Module Requests.

Definition fresh : middleware.ResponseWriter :=
  {| middleware.header := ∅; middleware.status := None;
     middleware.sent := ∅; middleware.body := "" |}.

Definition env : middleware.Env :=
  {| middleware.world := Scenario.world; middleware.logged := [] |}.

(** A request with one Authorization header and a context that already
    holds a user identifier. *)
Definition bearing (authorization : string) : middleware.Request :=
  {| middleware.Base := Scenario.one_header authorization;
     middleware.Ctx := [(middleware.UserIDKey, middleware.VString "someone-else")];
     middleware.Method := "GET"; middleware.RemoteAddr := "10.0.0.7:4242" |}.

Definition anonymous : middleware.Request :=
  {| middleware.Base := {| http.Header := ∅ |}; middleware.Ctx := [];
     middleware.Method := "GET"; middleware.RemoteAddr := "10.0.0.7:4242" |}.

(** A request from the same address that names another address in
    X-Forwarded-For. *)
Definition forwarded_for (addresses : string) : middleware.Request :=
  {| middleware.Base := {| http.Header := {[ "X-Forwarded-For" := [addresses] ]} |};
     middleware.Ctx := [];
     middleware.Method := "GET"; middleware.RemoteAddr := "10.0.0.7:4242" |}.

(** A limiter of two requests a minute whose bucket for the address is
    empty since instant 0, and readings one second later. *)
Definition spent : middleware.RateLimiter :=
  {| middleware.visitors :=
       {[ "10.0.0.7:4242" := {| middleware.tokens := 0; middleware.lastReset := 0 |} ]};
     middleware.limit := 2; middleware.window := middleware.Minute |}.

Definition at_instant (t : Z) : middleware.Readings :=
  {| middleware.at_new := t; middleware.at_since := t; middleware.at_reset := t |}.

(** A request that carries an Origin header. *)
Definition from_origin (origin : string) : middleware.Request :=
  {| middleware.Base := {| http.Header := {[ "Origin" := [origin] ]} |};
     middleware.Ctx := [];
     middleware.Method := "GET"; middleware.RemoteAddr := "10.0.0.7:4242" |}.

Definition second : Z := 1000000000.

(** The same limiter with [n] tokens left in the bucket of the address. *)
Definition with_tokens (n : Z) : middleware.RateLimiter :=
  {| middleware.visitors :=
       {[ "10.0.0.7:4242" := {| middleware.tokens := n; middleware.lastReset := 0 |} ]};
     middleware.limit := 2; middleware.window := middleware.Minute |}.

(** Requests of one address at the given seconds. *)
Definition calls_at (ip : string) (seconds : list Z)
  : list (string * middleware.Readings) :=
  map (fun s => (ip, at_instant (s * second))) seconds.

(** A business handler: answers with the user identifier of the context. *)
Definition whoami : middleware.Handler := fun r rw e =>
  match middleware.Value (middleware.Ctx r) middleware.UserIDKey with
  | Some (middleware.VString id) => (middleware.Write rw id, e)
  | _ => (middleware.Write rw "nobody", e)
  end.

(** Claims with the roles of [Scenario.claims]: realm role [user], client
    role [editor]; [admin] under another client only. *)
Definition alice : KeycloakClaims :=
  Scenario.claims Scenario.issuer ["payforward-app"].

(** A token whose header has no [kid]. *)
Definition tok_no_kid : jwt.Token :=
  {| jwt.Raw := "rs256.app.a1"; jwt.Method := jwt.SigningMethodRSA "RS256";
     jwt.Header := {[ "alg" := AnyString "RS256"; "typ" := AnyString "JWT" ]};
     jwt.Claims := alice; jwt.Signature := [Byte.xa1]; jwt.Valid := false |}.

Definition parse (s : string) : result jwt.Token :=
  if bool_decide (s = "rs256.app.a1") then inr tok_no_kid else Scenario.parse s.

(** A second entry for [k2], with another modulus. *)
Definition jwk2' : JWK :=
  {| Kid := "k2"; Kty := "RSA"; Alg := "RS256"; Use := "sig"; N := "AQAB"; E := "AQAB" |}.

Definition json (body : string) : result JWKSResponse :=
  if bool_decide (body = "jwks:k2,k3,k2'")
  then inr {| Keys := [Scenario.jwk2; Scenario.jwk3; jwk2'] |}
  else Scenario.json body.

(** Stand-ins for the userinfo call: every request can be built, the
    provider answers every request alike, and a body is known by name. *)
Definition new_request (ctx : unit) (method url : string) : result unit := inr tt.

Definition answer (code : Z) (body : string)
    : nat -> unit -> string -> gmap string (list string) -> result http.Response :=
  fun _ _ _ _ => inr {| http.StatusCode := code; http.Body := body |}.

Definition json_object (body : string) : result (gmap string any) :=
  if bool_decide (body = "alice") then inr {[ "sub" := AnyString "alice-id" ]}
  else inl ErrJSON.

End Requests.

Section Validator.

(** *** The outside of the program

    [http_Get n url] is what [http.Get url] returns when it is the
    [n]-th request of the process (counting from 0): a transport error or
    a response, of any status.  The other variables are the pure library
    functions the code calls. *)
Variable http_Get : nat -> string -> result http.Response.

(** [json.NewDecoder(body).Decode(&jwks)] into a [JWKSResponse]. *)
Variable json_Decode : string -> result JWKSResponse.

(** [base64.RawURLEncoding.DecodeString]. *)
Variable base64_DecodeString : string -> result (list Byte.byte).

(** The unverified part of [jwt.ParseWithClaims] on a [KeycloakClaims]:
    the three segments are split, header and claims are JSON-decoded,
    the signing method is looked up from the [alg] header and the
    signature segment is base64url-decoded.  No key is involved.
    (golang-jwt decodes the signature before the key function runs from
    5.2 on, after it in 5.0 and 5.1; the two agree on every token whose
    signature segment decodes.) *)
Variable jwt_ParseUnverified : string -> result jwt.Token.

(** [token.Method.Verify(signingString, signature, key)] succeeded. *)
Variable Method_Verify :
  jwt.SigningMethod -> string -> list Byte.byte -> PublicKey -> bool.

Definition do_http_Get (url : string) : M http.Response := fun w =>
  (http_Get (length (requests w)) url, log_request url w).

Definition do_Verify (m : jwt.SigningMethod) (text : string)
    (sig : list Byte.byte) (key : PublicKey) : M bool := fun w =>
  (inr (Method_Verify m text sig key), log_verify m key w).

Definition parseRSAPublicKey (jwk : JWK) : result PublicKey :=
  match base64_DecodeString (N jwk) with
  | inl err => inl err
  | inr nBytes =>
      match base64_DecodeString (E jwk) with
      | inl err => inl err
      | inr eBytes =>
          let n := SetBytes nBytes in
          let e := SetBytes eBytes in
          inr {| pk_N := n; pk_E := Int64 e |}
      end
  end.

(** The [for _, key := range jwks.Keys] loop of [refreshPublicKeys],
    run under the write lock on the map [m]. *)
Fixpoint install_keys (keys : list JWK) (m : gmap string PublicKey)
    : gmap string PublicKey :=
  match keys with
  | [] => m
  | key :: rest =>
      if bool_decide (Kty key = "RSA") && bool_decide (Use key = "sig") then
        match parseRSAPublicKey key with
        | inl _ => install_keys rest m
        | inr pubKey => install_keys rest (<[Kid key := pubKey]> m)
        end
      else install_keys rest m
  end.

Definition certs_url (k : KeycloakAuth) : string :=
  serverURL k ++ "/realms/" ++ realm k ++ "/protocol/openid-connect/certs".

(** The response is fetched and decoded first; the loop then runs, under
    the write lock, on the map as it is at that moment.  The status code
    of the response is not read. *)
Definition refreshPublicKeys : M unit :=
  k ← get_ka;
  let url := certs_url k in
  resp ← wrap_err ErrFetchJWKS (do_http_Get url);
  jwks ← wrap_err ErrDecodeJWKS (lift (json_Decode (http.Body resp)));
  k ← get_ka;
  put_publicKeys (install_keys (Keys jwks) (publicKeys k)).

(** [key, exists := ka.publicKeys[kid]] between [RLock] and [RUnlock]. *)
Definition lookup_key (kid : string) : M (option PublicKey) :=
  k ← get_ka; mret (publicKeys k !! kid).

Definition getPublicKey (kid : string) : M PublicKey :=
  found ← lookup_key kid;
  match found with
  | Some key => mret key
  | None =>
      _ ← wrap_err ErrRefreshKeys refreshPublicKeys;
      found ← lookup_key kid;
      match found with
      | Some key => mret key
      | None => fail (ErrKidNotFound kid)
      end
  end.

(** The key function [ValidateToken] hands to the parser. *)
Definition keyFunc (token : jwt.Token) : M PublicKey :=
  match jwt.Method token with
  | jwt.SigningMethodRSA _ =>
      match jwt.Header token !! "kid" with
      | Some (AnyString kid) => getPublicKey kid
      | _ => fail ErrKidMissing
      end
  | _ => fail (ErrUnexpectedSigningMethod (jwt.Header token !! "alg"))
  end.

(** The text a signature covers: the first two segments of the token. *)
Definition signing_string (tokenString : string) : string :=
  match strings.Split tokenString "." with
  | p0 :: p1 :: _ => p0 ++ "." ++ p1
  | _ => tokenString
  end.

(** [jwt.ParseWithClaims] (golang-jwt v5, default parser): unverified
    parse, key function, signature check, claims validation. *)
Definition jwt_ParseWithClaims (tokenString : string)
    (keyFunc : jwt.Token -> M PublicKey) : M jwt.Token :=
  token ← lift (jwt_ParseUnverified tokenString);
  key ← wrap_err ErrTokenUnverifiable (keyFunc token);
  ok ← do_Verify (jwt.Method token) (signing_string tokenString)
                 (jwt.Signature token) key;
  if negb ok then fail ErrTokenSignatureInvalid
  else
    t ← get_now;
    match jwt.Validate (Registered (jwt.Claims token)) t with
    | [] => mret (jwt.set_Valid token)
    | errs => fail (ErrTokenInvalidClaims errs)
    end.

Definition expectedIssuer (k : KeycloakAuth) : string :=
  serverURL k ++ "/realms/" ++ realm k.

(** The claims of the parsed token are the [*KeycloakClaims] handed to
    the parser, so the type assertion on [token.Claims] cannot fail. *)
Definition ValidateToken (tokenString : string) : M KeycloakClaims :=
  token ← wrap_err ErrParseToken (jwt_ParseWithClaims tokenString keyFunc);
  if negb (jwt.Valid token) then fail ErrInvalidToken
  else
    let claims := jwt.Claims token in
    k ← get_ka;
    if bool_decide (Issuer (Registered claims) ≠ expectedIssuer k)
    then fail (ErrInvalidIssuer (expectedIssuer k) (Issuer (Registered claims)))
    else if negb (validateAudience k (Audience (Registered claims)))
    then fail ErrInvalidAudience
    else mret claims.

(** *** Vocabulary of the specification *)

Definition not_expired (c : RegisteredClaims) (t : Z) : Prop :=
  match ExpiresAt c with Some exp => t < exp | None => True end.

Definition not_before_satisfied (c : RegisteredClaims) (t : Z) : Prop :=
  match NotBefore c with Some nbf => nbf <= t | None => True end.

Definition audience_accepted (k : KeycloakAuth) (audience : list string) : Prop :=
  exists aud, In aud audience /\ (aud = clientID k \/ aud = "account").

Definition signature_verifies (tokenString : string) (token : jwt.Token)
    (key : PublicKey) : Prop :=
  Method_Verify (jwt.Method token) (signing_string tokenString)
                (jwt.Signature token) key = true.

(** The provider has stopped advertising [kid]: from request number
    [from] on, no key set it serves lists that identifier. *)
Definition stopped_advertising (kid : string) (from : nat) : Prop :=
  forall n url resp jwks,
    (from <= n)%nat ->
    http_Get n url = inr resp ->
    json_Decode (http.Body resp) = inr jwks ->
    ~ In kid (map Kid (Keys jwks)).

(** What [ValidateToken] answers once the key function has returned
    [key]: signature, temporal claims, issuer, audience (steps 4 to 8);
    related to the code by [ValidateToken_with_key]. *)
Definition after_key (tokenString : string) (token : jwt.Token)
    (key : PublicKey) (k : KeycloakAuth) (t : Z) : result KeycloakClaims :=
  if negb (Method_Verify (jwt.Method token) (signing_string tokenString)
                         (jwt.Signature token) key)
  then inl (ErrParseToken ErrTokenSignatureInvalid)
  else
    match jwt.Validate (Registered (jwt.Claims token)) t with
    | [] =>
        let claims := jwt.Claims token in
        if bool_decide (Issuer (Registered claims) ≠ expectedIssuer k)
        then inl (ErrInvalidIssuer (expectedIssuer k) (Issuer (Registered claims)))
        else if negb (validateAudience k (Audience (Registered claims)))
        then inl ErrInvalidAudience
        else inr claims
    | errs => inl (ErrParseToken (ErrTokenInvalidClaims errs))
    end.

(** One operation, and a run of them. *)
Definition set_now (t : Z) (w : World) : World :=
  {| ka := ka w; now := t; requests := requests w; verified := verified w |}.

Definition step (w : World) (op : Op) : World :=
  match op with
  | OpRefresh => snd (refreshPublicKeys w)
  | OpValidate tokenString => snd (ValidateToken tokenString w)
  | OpGetKey kid => snd (getPublicKey kid w)
  | OpClock t => set_now t w
  end.

Definition run (ops : list Op) (w : World) : World := fold_left step ops w.

(** The configuration of a validator: everything but the key cache. *)
Definition config (k : KeycloakAuth) : string * string * string * string :=
  (realm k, serverURL k, clientID k, clientSecret k).

(** [evolves w w']: how the world may change while the process runs:
    the configuration is fixed, cached identifiers stay cached, requests
    are only added, and an identifier the provider no longer advertises
    keeps its cache entry. *)
Definition evolves (w w' : World) : Prop :=
  config (ka w') = config (ka w) /\
  (forall kid, is_Some (publicKeys (ka w) !! kid) ->
               is_Some (publicKeys (ka w') !! kid)) /\
  (length (requests w) <= length (requests w'))%nat /\
  (forall kid, stopped_advertising kid (length (requests w)) ->
               publicKeys (ka w') !! kid = publicKeys (ka w) !! kid).

Definition set_ResourceAccess (m : gmap string (list string)) (c : KeycloakClaims)
    : KeycloakClaims :=
  {| Email := Email c; EmailVerified := EmailVerified c;
     PreferredUsername := PreferredUsername c; Name := Name c;
     GivenName := GivenName c; FamilyName := FamilyName c;
     RealmAccess_Roles := RealmAccess_Roles c; ResourceAccess := m;
     Registered := Registered c |}.

(** *** The rest of [keycloak.go] and the authentication middleware *)

(** [context.Context] is left abstract: [GetUserInfo] only hands it on. *)
Variable context_Context : Type.

(** [http.NewRequestWithContext(ctx, method, url, nil)] could build the
    request (it fails on a nil context or a URL that does not parse). *)
Variable http_NewRequestWithContext :
  context_Context -> string -> string -> result unit.

(** [http.DefaultClient.Do(req)] when it is the [n]-th request of the
    process, for the context, URL and headers of [req]. *)
Variable http_Do :
  nat -> context_Context -> string -> gmap string (list string) -> result http.Response.

(** [json.NewDecoder(body).Decode(&userInfo)] into a
    [map[string]interface{}]. *)
Variable json_Decode_object : string -> result (gmap string any).

Definition userinfo_url (k : KeycloakAuth) : string :=
  serverURL k ++ "/realms/" ++ realm k ++ "/protocol/openid-connect/userinfo".

Definition GetUserInfo (ctx : context_Context) (accessToken : string) (w : World)
    : (userinfo_error + gmap string any) * World :=
  let url := userinfo_url (ka w) in
  match http_NewRequestWithContext ctx "GET" url with
  | inl err => (inl (UserInfoErr err), w)
  | inr _ =>
      let hdr := userinfo_header accessToken in
      let w1 := log_request url w in
      match http_Do (length (requests w)) ctx url hdr with
      | inl err => (inl (UserInfoErr err), w1)
      | inr resp =>
          if bool_decide (http.StatusCode resp ≠ http.StatusOK)
          then (inl (UserInfoStatus (http.StatusCode resp)), w1)
          else
            match json_Decode_object (http.Body resp) with
            | inl err => (inl (UserInfoErr err), w1)
            | inr userInfo => (inr userInfo, w1)
            end
      end
  end.

(** The middleware holds a pointer to the validator: the [ka] of the
    world. *)
Definition Authenticate (next : middleware.Handler) : middleware.Handler :=
  fun r rw e =>
  match ExtractBearerToken (ka (middleware.world e)) (middleware.Base r) with
  | inl _ =>
      (middleware.respondJSONError rw middleware.StatusUnauthorized
         "Missing or invalid authorization header", e)
  | inr tokenString =>
      match ValidateToken tokenString (middleware.world e) with
      | (inl err, w1) =>
          (middleware.respondJSONError rw middleware.StatusUnauthorized
             "Invalid or expired token",
           {| middleware.world := w1;
              middleware.logged :=
                middleware.LogTokenValidationFailed err :: middleware.logged e |})
      | (inr claims, w1) =>
          let ctx := middleware.WithValue (middleware.Ctx r) middleware.UserIDKey
                       (middleware.VString (Subject (Registered claims))) in
          let ctx := middleware.WithValue ctx middleware.EmailKey
                       (middleware.VString (Email claims)) in
          let ctx := middleware.WithValue ctx "keycloak_claims"
                       (middleware.VClaims claims) in
          next (middleware.WithContext r ctx) rw
               {| middleware.world := w1; middleware.logged := middleware.logged e |}
      end
  end.

Definition RequireRole (role : string) : middleware.Middleware :=
  fun next r rw e =>
  match middleware.Value (middleware.Ctx r) "keycloak_claims" with
  | Some (middleware.VClaims claims) =>
      if negb (HasRole (ka (middleware.world e)) claims role)
      then (middleware.respondJSONError rw middleware.StatusForbidden
              "Insufficient permissions", e)
      else next r rw e
  | _ =>
      (middleware.respondJSONError rw middleware.StatusUnauthorized
         "Authentication required", e)
  end.

(** The loop of [RequireAnyRole], leaving at the first role held. *)
Fixpoint has_any_role (k : KeycloakAuth) (claims : KeycloakClaims)
    (roles : list string) : bool :=
  match roles with
  | [] => false
  | role :: rest => if HasRole k claims role then true else has_any_role k claims rest
  end.

Definition RequireAnyRole (roles : list string) : middleware.Middleware :=
  fun next r rw e =>
  match middleware.Value (middleware.Ctx r) "keycloak_claims" with
  | Some (middleware.VClaims claims) =>
      let hasRole := has_any_role (ka (middleware.world e)) claims roles in
      if negb hasRole
      then (middleware.respondJSONError rw middleware.StatusForbidden
              "Insufficient permissions", e)
      else next r rw e
  | _ =>
      (middleware.respondJSONError rw middleware.StatusUnauthorized
         "Authentication required", e)
  end.

Definition OptionalAuth (next : middleware.Handler) : middleware.Handler :=
  fun r rw e =>
  let authHeader := Header_Get (http.Header (middleware.Base r)) "Authorization" in
  if bool_decide (authHeader = "") then next r rw e
  else
    match strings.Split authHeader " " with
    | [p0; p1] =>
        if bool_decide (p0 ≠ "Bearer") then next r rw e
        else
          match ValidateToken p1 (middleware.world e) with
          | (inl _, w1) =>
              next r rw {| middleware.world := w1;
                           middleware.logged := middleware.logged e |}
          | (inr claims, w1) =>
              let ctx := middleware.WithValue (middleware.Ctx r) middleware.UserIDKey
                           (middleware.VString (Subject (Registered claims))) in
              let ctx := middleware.WithValue ctx middleware.EmailKey
                           (middleware.VString (Email claims)) in
              let ctx := middleware.WithValue ctx "keycloak_claims"
                           (middleware.VClaims claims) in
              next (middleware.WithContext r ctx) rw
                   {| middleware.world := w1; middleware.logged := middleware.logged e |}
          end
    | _ => next r rw e
    end.

(** *** Vocabulary for the key set *)

(** An entry the installation loop installs, with the key it installs. *)
Definition installable (key : JWK) : option PublicKey :=
  if bool_decide (Kty key = "RSA") && bool_decide (Use key = "sig") then
    match parseRSAPublicKey key with
    | inl _ => None
    | inr pubKey => Some pubKey
    end
  else None.

(** The key a key set advertises under [kid]: that of its last
    installable entry with that identifier. *)
Fixpoint advertised (keys : list JWK) (kid : string) : option PublicKey :=
  match keys with
  | [] => None
  | key :: rest =>
      match advertised rest kid with
      | Some pubKey => Some pubKey
      | None => if bool_decide (Kid key = kid) then installable key else None
      end
  end.

(** ** Properties *)

(** *** [strings.Split] *)

Lemma Split_nonempty s sep : strings.Split s sep <> [].
Proof.
  destruct s as [|c s]; simpl; [discriminate|].
  destruct (Ascii.eqb c sep); [discriminate|].
  destruct (strings.Split s sep); discriminate.
Qed.

Lemma Split_app a s' sep :
  strings.ContainsByte a sep = false ->
  strings.Split (a ++ String sep s') sep = a :: strings.Split s' sep.
Proof.
  induction a as [|c a IH]; simpl; intros Hno.
  - now rewrite Ascii.eqb_refl.
  - apply orb_false_iff in Hno as [Hc Ha].
    rewrite Hc, (IH Ha). reflexivity.
Qed.

Lemma Split_no_sep a sep :
  strings.ContainsByte a sep = false -> strings.Split a sep = [a].
Proof.
  induction a as [|c a IH]; simpl; intros Hno; [reflexivity|].
  apply orb_false_iff in Hno as [Hc Ha].
  rewrite Hc, (IH Ha). reflexivity.
Qed.

Lemma Split_cons_inv s sep a rest :
  strings.Split s sep = a :: rest ->
  strings.ContainsByte a sep = false /\
  ((rest = [] /\ s = a) \/
   (exists s', s = a ++ String sep s' /\ strings.Split s' sep = rest)).
Proof.
  revert a rest. induction s as [|c s IH]; simpl; intros a rest H.
  - inversion H; subst. split; [reflexivity | left; auto].
  - destruct (Ascii.eqb c sep) eqn:Hc.
    + apply Ascii.eqb_eq in Hc. subst c. inversion H; subst.
      split; [reflexivity|]. right. exists s. auto.
    + destruct (strings.Split s sep) as [|p ps] eqn:Hs.
      * now apply Split_nonempty in Hs.
      * inversion H; subst. destruct (IH p rest eq_refl) as [Hp Hcase].
        split; [simpl; now rewrite Hc, Hp|].
        destruct Hcase as [[-> ->] | (s' & -> & Hs')]; [left; auto|].
        right. exists s'. auto.
Qed.

Lemma Split_two s sep a b :
  strings.Split s sep = [a; b] <->
  s = a ++ String sep b /\
  strings.ContainsByte a sep = false /\ strings.ContainsByte b sep = false.
Proof.
  split.
  - intros H. apply Split_cons_inv in H as [Ha [[? _] | (s' & -> & Hs')]]; [discriminate|].
    apply Split_cons_inv in Hs' as [Hb [[_ ->] | (s'' & _ & Hs'')]]; [auto|].
    now apply Split_nonempty in Hs''.
  - intros (-> & Ha & Hb). rewrite (Split_app _ _ _ Ha), (Split_no_sep _ _ Hb). reflexivity.
Qed.

(** *** The pure operations *)

Lemma ExtractBearerToken_inr ka r t :
  ExtractBearerToken ka r = inr t <->
  exists rest,
    http.Header r !! "Authorization" = Some (("Bearer " ++ t) :: rest) /\
    strings.ContainsByte t " " = false.
Proof.
  unfold ExtractBearerToken, Header_Get.
  change (textproto.CanonicalMIMEHeaderKey "Authorization") with "Authorization".
  split.
  - destruct (http.Header r !! "Authorization") as [[|v rest]|] eqn:Hh;
      simpl; try discriminate.
    case_bool_decide as Hv; [discriminate|].
    destruct (strings.Split v " ") as [|p0 [|p1 [|? ?]]] eqn:Hs; try discriminate.
    case_bool_decide as Hp; [discriminate|].
    intros [= ->]. assert (p0 = "Bearer") as -> by (destruct (decide (p0 = "Bearer")); tauto).
    apply Split_two in Hs as (-> & _ & Ht).
    exists rest. auto.
  - intros (rest & -> & Ht).
    assert (Hs : strings.Split ("Bearer " ++ t) " " = ["Bearer"; t])
      by (apply Split_two; auto).
    cbv zeta. rewrite Hs.
    rewrite bool_decide_eq_false_2 by discriminate.
    rewrite bool_decide_eq_false_2 by (intros H; now apply H).
    reflexivity.
Qed.

Lemma ExtractBearerToken_errors ka r err :
  ExtractBearerToken ka r = inl err ->
  err = ErrAuthHeaderNotFound \/ err = ErrAuthHeaderFormat.
Proof.
  unfold ExtractBearerToken. cbv zeta.
  case_bool_decide; [intros [= <-]; auto|].
  destruct (strings.Split _ _) as [|p0 [|p1 [|? ?]]]; try (intros [= <-]; auto).
  case_bool_decide; [intros [= <-]; auto | discriminate].
Qed.

(** C2 (amended). [ExtractBearerToken] returns [t] exactly when the first
    value of the Authorization header is ["Bearer"], one space, and [t],
    with no space in [t]; further Authorization values are not looked at.
    On every other request it returns one of its two errors. *)
Theorem ExtractBearerToken_reads_first_header ka r :
  (forall t,
     ExtractBearerToken ka r = inr t <->
     exists rest,
       http.Header r !! "Authorization" = Some (("Bearer " ++ t) :: rest) /\
       strings.ContainsByte t " " = false) /\
  ((forall t rest,
      http.Header r !! "Authorization" = Some (("Bearer " ++ t) :: rest) ->
      strings.ContainsByte t " " = true) ->
   ExtractBearerToken ka r = inl ErrAuthHeaderNotFound \/
   ExtractBearerToken ka r = inl ErrAuthHeaderFormat).
Proof.
  split; [intros t; apply ExtractBearerToken_inr|].
  intros Hno. destruct (ExtractBearerToken ka r) as [err|t] eqn:He.
  - destruct (ExtractBearerToken_errors _ _ _ He) as [-> | ->]; auto.
  - apply ExtractBearerToken_inr in He as (rest & Hh & Ht).
    rewrite (Hno _ _ Hh) in Ht. discriminate.
Qed.

Lemma role_in_true roles role : role_in roles role = true <-> In role roles.
Proof.
  induction roles as [|r rest IH]; simpl; [split; [discriminate | tauto]|].
  case_bool_decide as Hr.
  - split; auto.
  - rewrite IH. split; [auto | intros [? | ?]; [contradiction | assumption]].
Qed.

(** C7. [HasRole] is a total function of the validator's client
    identifier, the claims and the role name: it is true exactly when the
    role is among the realm roles or among the roles listed under the
    configured client identifier, and what is listed under any other
    client identifier does not change its answer. *)
Theorem HasRole_iff ka claims role :
  (HasRole ka claims role = true <->
   In role (RealmAccess_Roles claims) \/
   exists clientAccess,
     ResourceAccess claims !! clientID ka = Some clientAccess /\ In role clientAccess) /\
  (forall other roles,
     other <> clientID ka ->
     HasRole ka (set_ResourceAccess (<[other := roles]> (ResourceAccess claims)) claims) role
     = HasRole ka claims role).
Proof.
  split.
  - unfold HasRole.
    destruct (role_in (RealmAccess_Roles claims) role) eqn:Hr.
    + apply role_in_true in Hr. tauto.
    + assert (~ In role (RealmAccess_Roles claims)) as Hn
        by (intros H; apply role_in_true in H; congruence).
      destruct (ResourceAccess claims !! clientID ka) as [clientAccess|].
      * destruct (role_in clientAccess role) eqn:Hc.
        -- apply role_in_true in Hc. split; eauto.
        -- split; [discriminate|]. intros [? | (c & [= <-] & Hin)]; [contradiction|].
           apply role_in_true in Hin. congruence.
      * split; [discriminate|]. intros [? | (c & ? & _)]; [contradiction | discriminate].
  - intros other roles Hne. unfold HasRole, set_ResourceAccess. simpl.
    now rewrite lookup_insert_ne.
Qed.

(** *** Evaluation of the monadic code *)

Ltac run_M :=
  unfold ValidateToken, jwt_ParseWithClaims, keyFunc, getPublicKey, lookup_key,
    refreshPublicKeys, do_http_Get, do_Verify, put_publicKeys, get_ka, get_now,
    wrap_err, lift, fail, mbind, M_bind, mret, M_ret; cbn.

Lemma refreshPublicKeys_eq w :
  refreshPublicKeys w =
  let url := certs_url (ka w) in
  let w1 := log_request url w in
  match http_Get (length (requests w)) url with
  | inl err => (inl (ErrFetchJWKS err), w1)
  | inr resp =>
      match json_Decode (http.Body resp) with
      | inl err => (inl (ErrDecodeJWKS err), w1)
      | inr jwks =>
          (inr tt,
           {| ka := set_publicKeys (install_keys (Keys jwks) (publicKeys (ka w))) (ka w);
              now := now w; requests := url :: requests w; verified := verified w |})
      end
  end.
Proof.
  run_M. destruct (http_Get _ _) as [err|resp]; [reflexivity|].
  destruct (json_Decode _) as [err|jwks]; reflexivity.
Qed.

Lemma getPublicKey_cached kid key w :
  publicKeys (ka w) !! kid = Some key -> getPublicKey kid w = (inr key, w).
Proof. intros H. run_M. now rewrite H. Qed.

Lemma getPublicKey_missing kid w :
  publicKeys (ka w) !! kid = None ->
  getPublicKey kid w =
  match refreshPublicKeys w with
  | (inl err, w1) => (inl (ErrRefreshKeys err), w1)
  | (inr _, w1) =>
      match publicKeys (ka w1) !! kid with
      | Some key => (inr key, w1)
      | None => (inl (ErrKidNotFound kid), w1)
      end
  end.
Proof.
  intros H. unfold getPublicKey, lookup_key, get_ka, wrap_err, fail, mbind, M_bind, mret, M_ret.
  rewrite H. destruct (refreshPublicKeys w) as [[err|[]] w1]; [reflexivity|].
  destruct (publicKeys (ka w1) !! kid); reflexivity.
Qed.

Lemma ValidateToken_unparsed tokenString err w :
  jwt_ParseUnverified tokenString = inl err ->
  ValidateToken tokenString w = (inl (ErrParseToken err), w).
Proof.
  intros H. unfold ValidateToken, jwt_ParseWithClaims, wrap_err, lift, mbind, M_bind.
  now rewrite H.
Qed.

(** Once the token is parsed, [ValidateToken] is the key function
    followed by the checks of [after_key]. *)
Lemma ValidateToken_parsed tokenString token w :
  jwt_ParseUnverified tokenString = inr token ->
  ValidateToken tokenString w =
  match keyFunc token w with
  | (inl err, w1) => (inl (ErrParseToken (ErrTokenUnverifiable err)), w1)
  | (inr key, w1) =>
      (after_key tokenString token key (ka w1) (now w1),
       log_verify (jwt.Method token) key w1)
  end.
Proof.
  intros H.
  unfold ValidateToken, jwt_ParseWithClaims, after_key, do_Verify, get_now, get_ka,
    wrap_err, lift, fail, mbind, M_bind, mret, M_ret.
  rewrite H. destruct (keyFunc token w) as [[err|key] w1]; [reflexivity|].
  destruct (Method_Verify _ _ _ _); cbn; [|reflexivity].
  destruct (jwt.Validate _ _); cbn; [|reflexivity].
  case_bool_decide; [reflexivity|].
  destruct (validateAudience _ _); reflexivity.
Qed.

Lemma keyFunc_RSA token alg kid w :
  jwt.Method token = jwt.SigningMethodRSA alg ->
  jwt.Header token !! "kid" = Some (AnyString kid) ->
  keyFunc token w = getPublicKey kid w.
Proof. intros Hm Hk. unfold keyFunc. now rewrite Hm, Hk. Qed.

Lemma keyFunc_not_RSA token w :
  (forall alg, jwt.Method token <> jwt.SigningMethodRSA alg) ->
  keyFunc token w = (inl (ErrUnexpectedSigningMethod (jwt.Header token !! "alg")), w).
Proof.
  intros Hm. unfold keyFunc, fail.
  destruct (jwt.Method token) eqn:E; try reflexivity.
  now destruct (Hm alg).
Qed.

Lemma ValidateToken_with_key tokenString token alg kid key w :
  jwt_ParseUnverified tokenString = inr token ->
  jwt.Method token = jwt.SigningMethodRSA alg ->
  jwt.Header token !! "kid" = Some (AnyString kid) ->
  publicKeys (ka w) !! kid = Some key ->
  ValidateToken tokenString w =
  (after_key tokenString token key (ka w) (now w),
   log_verify (jwt.Method token) key w).
Proof.
  intros Hp Hm Hk Hc.
  rewrite (ValidateToken_parsed _ _ _ Hp), (keyFunc_RSA _ _ _ _ Hm Hk).
  now rewrite (getPublicKey_cached _ _ _ Hc).
Qed.

(** *** The audience and temporal checks *)

Lemma validateAudience_true k audience :
  validateAudience k audience = true <-> audience_accepted k audience.
Proof.
  unfold audience_accepted. induction audience as [|aud rest IH]; simpl.
  - split; [discriminate | intros (a & [] & _)].
  - destruct (bool_decide (aud = clientID k) || bool_decide (aud = "account")) eqn:Hb.
    + split; [intros _ | reflexivity]. exists aud. split; [now left|].
      apply orb_true_iff in Hb as [Hb | Hb]; apply bool_decide_eq_true in Hb; auto.
    + apply orb_false_iff in Hb as [H1 H2].
      apply bool_decide_eq_false in H1, H2.
      rewrite IH. split.
      * intros (a & Hin & Ha). exists a. split; [now right | exact Ha].
      * intros (a & [-> | Hin] & Ha); [destruct Ha; contradiction|].
        exists a. auto.
Qed.

Lemma Validate_nil c t :
  jwt.Validate c t = [] <-> not_expired c t /\ not_before_satisfied c t.
Proof.
  unfold jwt.Validate, jwt.verifyExpiresAt, jwt.verifyNotBefore,
    not_expired, not_before_satisfied.
  destruct (ExpiresAt c) as [exp|], (NotBefore c) as [nbf|]; simpl;
    repeat match goal with
           | |- context [?a <? ?b] => destruct (Z.ltb_spec a b); simpl
           end; split; try (intros [? ?]); try discriminate; try lia; auto.
Qed.

Lemma after_key_accepts tokenString token key k t :
  signature_verifies tokenString token key ->
  not_expired (Registered (jwt.Claims token)) t ->
  not_before_satisfied (Registered (jwt.Claims token)) t ->
  Issuer (Registered (jwt.Claims token)) = expectedIssuer k ->
  audience_accepted k (Audience (Registered (jwt.Claims token))) ->
  after_key tokenString token key k t = inr (jwt.Claims token).
Proof.
  intros Hs He Hn Hi Ha. unfold after_key. rewrite Hs. simpl.
  rewrite (proj2 (Validate_nil _ _) (conj He Hn)).
  rewrite bool_decide_eq_false_2 by (intros H; now apply H).
  apply validateAudience_true in Ha. now rewrite Ha.
Qed.

Lemma after_key_inr tokenString token key k t c :
  after_key tokenString token key k t = inr c ->
  c = jwt.Claims token /\
  signature_verifies tokenString token key /\
  not_expired (Registered (jwt.Claims token)) t /\
  not_before_satisfied (Registered (jwt.Claims token)) t /\
  Issuer (Registered (jwt.Claims token)) = expectedIssuer k /\
  audience_accepted k (Audience (Registered (jwt.Claims token))).
Proof.
  unfold after_key, signature_verifies.
  destruct (Method_Verify _ _ _ _); simpl; [|discriminate].
  destruct (jwt.Validate _ _) eqn:Hv; [|discriminate].
  apply Validate_nil in Hv as [He Hn].
  case_bool_decide as Hi; [discriminate|].
  destruct (validateAudience _ _) eqn:Ha; simpl; [|discriminate].
  intros [= <-]. apply validateAudience_true in Ha.
  repeat split; auto.
Qed.

(** *** The installation loop *)

Lemma install_keys_skips_unparsable key rest m err :
  parseRSAPublicKey key = inl err ->
  install_keys (key :: rest) m = install_keys rest m.
Proof. intros H. simpl. rewrite H. now destruct (_ && _). Qed.

Lemma install_keys_skips_other_kind key rest m :
  Kty key <> "RSA" \/ Use key <> "sig" ->
  install_keys (key :: rest) m = install_keys rest m.
Proof.
  intros H. simpl.
  destruct H as [H|H]; rewrite (bool_decide_eq_false_2 _ H);
    [reflexivity | now rewrite andb_false_r].
Qed.

Lemma install_keys_installs key rest m pubKey :
  Kty key = "RSA" -> Use key = "sig" ->
  parseRSAPublicKey key = inr pubKey ->
  install_keys (key :: rest) m = install_keys rest (<[Kid key := pubKey]> m).
Proof.
  intros H1 H2 H3. simpl.
  rewrite (bool_decide_eq_true_2 _ H1), (bool_decide_eq_true_2 _ H2), H3.
  reflexivity.
Qed.

Lemma install_keys_keeps keys : forall m kid,
  is_Some (m !! kid) -> is_Some (install_keys keys m !! kid).
Proof.
  induction keys as [|key rest IH]; intros m kid H; simpl; [exact H|].
  destruct (_ && _); [|now apply IH].
  destruct (parseRSAPublicKey key) as [err|pubKey]; apply IH; [exact H|].
  rewrite lookup_insert. case_decide; [eauto | exact H].
Qed.

Lemma install_keys_not_listed keys : forall m kid,
  ~ In kid (map Kid keys) -> install_keys keys m !! kid = m !! kid.
Proof.
  induction keys as [|key rest IH]; intros m kid H; simpl; [reflexivity|].
  simpl in H. apply Decidable.not_or in H as [Hk Hrest].
  destruct (_ && _); [|now apply IH].
  destruct (parseRSAPublicKey key) as [err|pubKey]; rewrite (IH _ _ Hrest); [reflexivity|].
  now rewrite lookup_insert_ne.
Qed.

(** Every entry of the right kind that parses ends up cached, whatever
    happens to the entries around it. *)
Lemma install_keys_listed keys : forall m key pubKey,
  In key keys ->
  Kty key = "RSA" -> Use key = "sig" ->
  parseRSAPublicKey key = inr pubKey ->
  is_Some (install_keys keys m !! Kid key).
Proof.
  induction keys as [|k rest IH]; intros m key pubKey Hin H1 H2 H3; [destruct Hin|].
  destruct Hin as [-> | Hin].
  - rewrite (install_keys_installs _ _ _ _ H1 H2 H3).
    apply install_keys_keeps. rewrite lookup_insert_eq. eauto.
  - simpl. destruct (_ && _); [|now apply (IH _ _ pubKey)].
    destruct (parseRSAPublicKey k); now apply (IH _ _ pubKey).
Qed.

(** *** How the world evolves *)

Lemma stopped_advertising_later kid n n' :
  (n <= n')%nat -> stopped_advertising kid n -> stopped_advertising kid n'.
Proof. intros Hle H m url resp jwks Hm. apply H. lia. Qed.

Lemma evolves_refl w : evolves w w.
Proof. repeat split; auto. Qed.

Lemma evolves_trans w1 w2 w3 : evolves w1 w2 -> evolves w2 w3 -> evolves w1 w3.
Proof.
  intros (Hc1 & Hk1 & Hr1 & Hs1) (Hc2 & Hk2 & Hr2 & Hs2).
  repeat split.
  - congruence.
  - auto.
  - lia.
  - intros kid H. rewrite Hs2, Hs1; auto.
    eapply stopped_advertising_later; eauto.
Qed.

Lemma evolves_log_verify m key w : evolves w (log_verify m key w).
Proof. repeat split; auto. Qed.

Lemma evolves_set_now t w : evolves w (set_now t w).
Proof. repeat split; auto. Qed.

Lemma evolves_refresh w : evolves w (snd (refreshPublicKeys w)).
Proof.
  rewrite refreshPublicKeys_eq. cbv zeta.
  destruct (http_Get _ _) as [err|resp] eqn:Hg;
    [repeat split; simpl; auto; lia|].
  destruct (json_Decode _) as [err|jwks] eqn:Hj;
    [repeat split; simpl; auto; lia|].
  repeat split; simpl; auto.
  - intros kid. apply install_keys_keeps.
  - intros kid Hs. apply install_keys_not_listed.
    eapply Hs; eauto.
Qed.

Lemma evolves_getPublicKey kid w : evolves w (snd (getPublicKey kid w)).
Proof.
  destruct (publicKeys (ka w) !! kid) as [key|] eqn:Hc.
  - rewrite (getPublicKey_cached _ _ _ Hc). apply evolves_refl.
  - rewrite (getPublicKey_missing _ _ Hc).
    pose proof (evolves_refresh w) as He.
    destruct (refreshPublicKeys w) as [[err|?] w1]; [exact He|].
    destruct (publicKeys (ka w1) !! kid); exact He.
Qed.

Lemma evolves_keyFunc token w : evolves w (snd (keyFunc token w)).
Proof.
  unfold keyFunc, fail.
  destruct (jwt.Method token); try apply evolves_refl.
  destruct (jwt.Header token !! "kid") as [[kid| | | |]|]; try apply evolves_refl.
  apply evolves_getPublicKey.
Qed.

Lemma evolves_ValidateToken tokenString w :
  evolves w (snd (ValidateToken tokenString w)).
Proof.
  destruct (jwt_ParseUnverified tokenString) as [err|token] eqn:Hp.
  - rewrite (ValidateToken_unparsed _ _ _ Hp). apply evolves_refl.
  - rewrite (ValidateToken_parsed _ _ _ Hp).
    pose proof (evolves_keyFunc token w) as He.
    destruct (keyFunc token w) as [[err|key] w1]; [exact He|].
    eapply evolves_trans; [exact He | apply evolves_log_verify].
Qed.

Lemma evolves_step op w : evolves w (step w op).
Proof.
  destruct op; simpl.
  - apply evolves_refresh.
  - apply evolves_ValidateToken.
  - apply evolves_getPublicKey.
  - apply evolves_set_now.
Qed.

Lemma evolves_run ops : forall w, evolves w (run ops w).
Proof.
  induction ops as [|op ops IH]; intros w; [apply evolves_refl|].
  eapply evolves_trans; [apply evolves_step | apply IH].
Qed.

Lemma expectedIssuer_config k k' :
  config k = config k' -> expectedIssuer k = expectedIssuer k'.
Proof. unfold config, expectedIssuer. now intros [= -> -> _ _]. Qed.

Lemma audience_accepted_config k k' audience :
  config k = config k' -> audience_accepted k audience -> audience_accepted k' audience.
Proof. unfold config, audience_accepted. now intros [= _ _ -> _]. Qed.

Lemma refresh_frame w :
  let w1 := snd (refreshPublicKeys w) in
  now w1 = now w /\ verified w1 = verified w /\
  requests w1 = certs_url (ka w) :: requests w /\
  config (ka w1) = config (ka w).
Proof.
  rewrite refreshPublicKeys_eq. cbv zeta.
  destruct (http_Get _ _) as [err|resp]; [now repeat split|].
  destruct (json_Decode _) as [err|jwks]; now repeat split.
Qed.

(** A failed refresh leaves the validator as it was. *)
Lemma refresh_failure_keeps_cache w err :
  fst (refreshPublicKeys w) = inl err -> ka (snd (refreshPublicKeys w)) = ka w.
Proof.
  rewrite refreshPublicKeys_eq. cbv zeta.
  destruct (http_Get _ _) as [e|resp]; [reflexivity|].
  destruct (json_Decode _) as [e|jwks]; [reflexivity | discriminate].
Qed.

Lemma after_key_wrong_issuer tokenString token key k t :
  Issuer (Registered (jwt.Claims token)) <> expectedIssuer k ->
  exists err,
    after_key tokenString token key k t = inl err /\
    (signature_verifies tokenString token key ->
     not_expired (Registered (jwt.Claims token)) t ->
     not_before_satisfied (Registered (jwt.Claims token)) t ->
     err = ErrInvalidIssuer (expectedIssuer k) (Issuer (Registered (jwt.Claims token)))).
Proof.
  intros Hi. unfold after_key, signature_verifies.
  destruct (Method_Verify _ _ _ _); simpl;
    [|eexists; split; [reflexivity | discriminate]].
  destruct (jwt.Validate _ _) as [|e errs] eqn:Hv.
  - rewrite (bool_decide_eq_true_2 _ Hi). eexists; split; [reflexivity | auto].
  - eexists; split; [reflexivity|]. intros _ He Hn.
    rewrite (proj2 (Validate_nil _ _) (conj He Hn)) in Hv. discriminate.
Qed.

Lemma after_key_foreign_audience tokenString token key k t :
  ~ audience_accepted k (Audience (Registered (jwt.Claims token))) ->
  exists err,
    after_key tokenString token key k t = inl err /\
    (signature_verifies tokenString token key ->
     not_expired (Registered (jwt.Claims token)) t ->
     not_before_satisfied (Registered (jwt.Claims token)) t ->
     Issuer (Registered (jwt.Claims token)) = expectedIssuer k ->
     err = ErrInvalidAudience).
Proof.
  intros Ha. unfold after_key, signature_verifies.
  assert (Hf : validateAudience k (Audience (Registered (jwt.Claims token))) = false).
  { destruct (validateAudience _ _) eqn:E; [|reflexivity].
    now apply validateAudience_true in E. }
  destruct (Method_Verify _ _ _ _); simpl;
    [|eexists; split; [reflexivity | discriminate]].
  destruct (jwt.Validate _ _) as [|e errs] eqn:Hv.
  - case_bool_decide as Hi.
    + eexists; split; [reflexivity|]. intros _ _ _ Hi'. contradiction.
    + rewrite Hf. simpl. eexists; split; [reflexivity | auto].
  - eexists; split; [reflexivity|]. intros _ He Hn.
    rewrite (proj2 (Validate_nil _ _) (conj He Hn)) in Hv. discriminate.
Qed.

(** A claim check that fails under every key fails the validation. *)
Lemma ValidateToken_fails_when_checks_fail tokenString token w :
  jwt_ParseUnverified tokenString = inr token ->
  (forall key k t, config k = config (ka w) ->
     exists err, after_key tokenString token key k t = inl err) ->
  exists err, fst (ValidateToken tokenString w) = inl err.
Proof.
  intros Hp Hchk. rewrite (ValidateToken_parsed _ _ _ Hp).
  pose proof (evolves_keyFunc token w) as (Hc & _).
  destruct (keyFunc token w) as [[err|key] w1]; simpl in *; [eauto|].
  apply Hchk. exact Hc.
Qed.

(** *** The claims *)

(** C6. A token whose signing method is not [SigningMethodRSA] (RS256,
    RS384, RS512) is rejected by the key function and the world is left
    untouched: no signature was verified and no key was looked up or
    fetched, whatever the cache holds.  (A token whose [alg] names no
    method at all does not get past the unverified parse:
    [ValidateToken_unparsed].) *)
Theorem ValidateToken_rejects_other_algorithms tokenString token w :
  jwt_ParseUnverified tokenString = inr token ->
  (forall alg, jwt.Method token <> jwt.SigningMethodRSA alg) ->
  ValidateToken tokenString w =
  (inl (ErrParseToken (ErrTokenUnverifiable
          (ErrUnexpectedSigningMethod (jwt.Header token !! "alg")))), w) /\
  requests (snd (ValidateToken tokenString w)) = requests w /\
  verified (snd (ValidateToken tokenString w)) = verified w.
Proof.
  intros Hp Hm.
  rewrite (ValidateToken_parsed _ _ _ Hp), (keyFunc_not_RSA _ _ Hm).
  auto.
Qed.

(** C5. A token whose issuer differs from [serverURL/realms/realm] as a
    string is rejected; when its signature and temporal claims are valid,
    the error is the issuer error. *)
Theorem ValidateToken_rejects_wrong_issuer tokenString token w :
  jwt_ParseUnverified tokenString = inr token ->
  Issuer (Registered (jwt.Claims token)) <> serverURL (ka w) ++ "/realms/" ++ realm (ka w) ->
  (exists err, fst (ValidateToken tokenString w) = inl err) /\
  (forall alg kid key,
     jwt.Method token = jwt.SigningMethodRSA alg ->
     jwt.Header token !! "kid" = Some (AnyString kid) ->
     publicKeys (ka w) !! kid = Some key ->
     signature_verifies tokenString token key ->
     not_expired (Registered (jwt.Claims token)) (now w) ->
     not_before_satisfied (Registered (jwt.Claims token)) (now w) ->
     fst (ValidateToken tokenString w) =
     inl (ErrInvalidIssuer (serverURL (ka w) ++ "/realms/" ++ realm (ka w))
                           (Issuer (Registered (jwt.Claims token))))).
Proof.
  intros Hp Hi. fold (expectedIssuer (ka w)) in *. split.
  - apply (ValidateToken_fails_when_checks_fail _ _ _ Hp).
    intros key k t Hc.
    destruct (after_key_wrong_issuer tokenString token key k t) as (err & He & _); eauto.
    now rewrite (expectedIssuer_config _ _ Hc).
  - intros alg kid key Hm Hk Hc Hs He Hn.
    rewrite (ValidateToken_with_key _ _ _ _ _ _ Hp Hm Hk Hc). simpl.
    destruct (after_key_wrong_issuer tokenString token key (ka w) (now w) Hi)
      as (err & -> & Herr).
    now rewrite Herr.
Qed.

(** C4. The audience check passes exactly when some element of the
    audience list is the configured client identifier or ["account"]; a
    token whose audience has no such element is rejected, and when its
    signature, temporal claims and issuer are valid the error is the
    audience error. *)
Theorem ValidateToken_rejects_foreign_audience tokenString token w :
  jwt_ParseUnverified tokenString = inr token ->
  ~ audience_accepted (ka w) (Audience (Registered (jwt.Claims token))) ->
  (forall k audience,
     validateAudience k audience = true <->
     exists aud, In aud audience /\ (aud = clientID k \/ aud = "account")) /\
  (exists err, fst (ValidateToken tokenString w) = inl err) /\
  (forall alg kid key,
     jwt.Method token = jwt.SigningMethodRSA alg ->
     jwt.Header token !! "kid" = Some (AnyString kid) ->
     publicKeys (ka w) !! kid = Some key ->
     signature_verifies tokenString token key ->
     not_expired (Registered (jwt.Claims token)) (now w) ->
     not_before_satisfied (Registered (jwt.Claims token)) (now w) ->
     Issuer (Registered (jwt.Claims token)) = expectedIssuer (ka w) ->
     fst (ValidateToken tokenString w) = inl ErrInvalidAudience).
Proof.
  intros Hp Ha. split; [exact validateAudience_true|]. split.
  - apply (ValidateToken_fails_when_checks_fail _ _ _ Hp).
    intros key k t Hc.
    destruct (after_key_foreign_audience tokenString token key k t) as (err & He & _); eauto.
    intros H. apply Ha. exact (audience_accepted_config _ _ _ Hc H).
  - intros alg kid key Hm Hk Hc Hs He Hn Hi.
    rewrite (ValidateToken_with_key _ _ _ _ _ _ Hp Hm Hk Hc). simpl.
    destruct (after_key_foreign_audience tokenString token key (ka w) (now w) Ha)
      as (err & -> & Herr).
    now rewrite Herr.
Qed.

(** C8 (amended). A token that declares RS256, RS384 or RS512, carries the
    identifier of a cached key, verifies under that key, is neither
    expired nor used before its not-before time, has the expected issuer
    and an accepted audience, validates: the claims returned are those of
    the token, subject and email included, and nothing is fetched. *)
Theorem ValidateToken_accepts tokenString token alg kid key w :
  jwt_ParseUnverified tokenString = inr token ->
  jwt.Method token = jwt.SigningMethodRSA alg ->
  jwt.Header token !! "kid" = Some (AnyString kid) ->
  publicKeys (ka w) !! kid = Some key ->
  signature_verifies tokenString token key ->
  not_expired (Registered (jwt.Claims token)) (now w) ->
  not_before_satisfied (Registered (jwt.Claims token)) (now w) ->
  Issuer (Registered (jwt.Claims token)) = serverURL (ka w) ++ "/realms/" ++ realm (ka w) ->
  audience_accepted (ka w) (Audience (Registered (jwt.Claims token))) ->
  exists claims,
    ValidateToken tokenString w = (inr claims, log_verify (jwt.Method token) key w) /\
    claims = jwt.Claims token /\
    Subject (Registered claims) = Subject (Registered (jwt.Claims token)) /\
    Email claims = Email (jwt.Claims token).
Proof.
  intros Hp Hm Hk Hc Hs He Hn Hi Ha.
  exists (jwt.Claims token).
  rewrite (ValidateToken_with_key _ _ _ _ _ _ Hp Hm Hk Hc).
  rewrite (after_key_accepts _ _ _ _ _ Hs He Hn Hi Ha). auto.
Qed.

(** C1 (amended). For a well-formed token that declares RS256, RS384 or
    RS512 and names a key identifier absent from the cache,
    [ValidateToken] issues exactly one request to the key-set endpoint
    and leaves the cache as one [refreshPublicKeys] leaves it.  When that
    refresh fails, the validation fails with the refresh error; when it
    succeeds without the identifier, with the key-not-found error; when
    it brings the identifier, validation goes on exactly as from the
    refreshed cache: the signature is checked against the new key, and
    the token is accepted when the signature, the temporal claims, the
    issuer and the audience are valid.  A well-formed token that declares
    another algorithm is rejected by the key function before any lookup:
    no request is issued, the cache is as it was and nothing is verified,
    whatever key identifier the token names. *)
Theorem ValidateToken_unknown_kid_refreshes_once tokenString token w :
  jwt_ParseUnverified tokenString = inr token ->
  (forall alg kid,
     jwt.Method token = jwt.SigningMethodRSA alg ->
     jwt.Header token !! "kid" = Some (AnyString kid) ->
     publicKeys (ka w) !! kid = None ->
     let w1 := snd (refreshPublicKeys w) in
     requests (snd (ValidateToken tokenString w)) = certs_url (ka w) :: requests w /\
     ka (snd (ValidateToken tokenString w)) = ka w1 /\
     match fst (refreshPublicKeys w), publicKeys (ka w1) !! kid with
     | inl err, _ =>
         ValidateToken tokenString w =
         (inl (ErrParseToken (ErrTokenUnverifiable (ErrRefreshKeys err))), w1)
     | inr _, None =>
         ValidateToken tokenString w =
         (inl (ErrParseToken (ErrTokenUnverifiable (ErrKidNotFound kid))), w1)
     | inr _, Some key =>
         ValidateToken tokenString w = ValidateToken tokenString w1 /\
         verified (snd (ValidateToken tokenString w))
         = (jwt.Method token, key) :: verified w /\
         (signature_verifies tokenString token key ->
          not_expired (Registered (jwt.Claims token)) (now w) ->
          not_before_satisfied (Registered (jwt.Claims token)) (now w) ->
          Issuer (Registered (jwt.Claims token)) = expectedIssuer (ka w) ->
          audience_accepted (ka w) (Audience (Registered (jwt.Claims token))) ->
          fst (ValidateToken tokenString w) = inr (jwt.Claims token))
     end) /\
  ((forall alg, jwt.Method token <> jwt.SigningMethodRSA alg) ->
   ValidateToken tokenString w =
   (inl (ErrParseToken (ErrTokenUnverifiable
           (ErrUnexpectedSigningMethod (jwt.Header token !! "alg")))), w) /\
   requests (snd (ValidateToken tokenString w)) = requests w /\
   ka (snd (ValidateToken tokenString w)) = ka w /\
   verified (snd (ValidateToken tokenString w)) = verified w).
Proof.
  intros Hp. split.
  - intros alg kid Hm Hk Hc. cbv zeta.
    destruct (refresh_frame w) as (Hnow & Hver & Hreq & Hcfg).
    rewrite (ValidateToken_parsed _ _ _ Hp), (keyFunc_RSA _ _ _ _ Hm Hk).
    rewrite (getPublicKey_missing _ _ Hc).
    destruct (refreshPublicKeys w) as [[err|u] w1]; simpl in *; [auto|].
    destruct (publicKeys (ka w1) !! kid) as [key|] eqn:Hc1; simpl; [|auto].
    repeat split; auto.
    + now rewrite (ValidateToken_with_key _ _ _ _ _ _ Hp Hm Hk Hc1).
    + now rewrite Hver.
    + intros Hs He Hn Hi Ha. apply after_key_accepts; auto.
      * now rewrite Hnow.
      * now rewrite Hnow.
      * rewrite Hi. symmetry. now apply expectedIssuer_config.
      * eapply audience_accepted_config; [symmetry; exact Hcfg | exact Ha].
  - intros Hm.
    rewrite (ValidateToken_parsed _ _ _ Hp), (keyFunc_not_RSA _ _ Hm).
    auto.
Qed.

(** C3, where the code departs from it.  [refreshPublicKeys] never looks
    at the status code: a response of any status, HTTP 500 included,
    whose body decodes is a success, and the keys it lists are installed.
    (The rest of C3 holds: X1 and X2 below.) *)
Theorem refreshPublicKeys_ignores_status w resp jwks :
  http_Get (length (requests w)) (certs_url (ka w)) = inr resp ->
  json_Decode (http.Body resp) = inr jwks ->
  fst (refreshPublicKeys w) = inr tt /\
  publicKeys (ka (snd (refreshPublicKeys w))) =
  install_keys (Keys jwks) (publicKeys (ka w)).
Proof.
  intros Hg Hj. rewrite refreshPublicKeys_eq. cbv zeta.
  rewrite Hg, Hj. split; reflexivity.
Qed.

(** C10. Along any run of the process the set of cached identifiers only
    grows; an identifier that is cached stays resolvable by
    [getPublicKey], without a fetch; and once the provider has stopped
    advertising it, its entry is never touched again, so a token signed
    with that key which validates now validates after the run too, as
    long as its temporal claims hold then. *)
Theorem key_cache_only_grows ops w kid key0 :
  publicKeys (ka w) !! kid = Some key0 ->
  let w' := run ops w in
  dom (publicKeys (ka w)) ⊆ dom (publicKeys (ka w')) /\
  (exists key, getPublicKey kid w' = (inr key, w')) /\
  (stopped_advertising kid (length (requests w)) ->
   publicKeys (ka w') !! kid = Some key0 /\
   forall tokenString token alg,
     jwt_ParseUnverified tokenString = inr token ->
     jwt.Method token = jwt.SigningMethodRSA alg ->
     jwt.Header token !! "kid" = Some (AnyString kid) ->
     is_ok (fst (ValidateToken tokenString w)) = true ->
     not_expired (Registered (jwt.Claims token)) (now w') ->
     not_before_satisfied (Registered (jwt.Claims token)) (now w') ->
     ValidateToken tokenString w' =
     (inr (jwt.Claims token), log_verify (jwt.Method token) key0 w')).
Proof.
  intros Hc. cbv zeta.
  destruct (evolves_run ops w) as (Hcfg & Hkeep & _ & Hstop).
  split; [|split].
  - intros k Hin. apply elem_of_dom. apply Hkeep. now apply elem_of_dom.
  - destruct (Hkeep kid) as [key Hkey]; [eauto|].
    exists key. now apply getPublicKey_cached.
  - intros Hs. specialize (Hstop kid Hs). rewrite Hc in Hstop.
    split; [exact Hstop|].
    intros tokenString token alg Hp Hm Hk Hok He Hn.
    rewrite (ValidateToken_with_key _ _ _ _ _ _ Hp Hm Hk Hc) in Hok. simpl in Hok.
    destruct (after_key tokenString token key0 (ka w) (now w)) as [err|c] eqn:Hv;
      [discriminate|].
    apply after_key_inr in Hv as (_ & Hsig & _ & _ & Hi & Ha).
    rewrite (ValidateToken_with_key _ _ _ _ _ _ Hp Hm Hk Hstop).
    rewrite after_key_accepts; auto.
    + rewrite Hi. symmetry. now apply expectedIssuer_config.
    + eapply audience_accepted_config; [symmetry; exact Hcfg | exact Ha].
Qed.


(** X1. Atomicity of a failed refresh.  When [refreshPublicKeys] returns an
    error the validator is exactly as before, and a token whose key was
    cached gets the same answer after the failure as before it. *)
Theorem refreshPublicKeys_failure_is_atomic w err :
  fst (refreshPublicKeys w) = inl err ->
  ka (snd (refreshPublicKeys w)) = ka w /\
  forall tokenString token alg kid key,
    jwt_ParseUnverified tokenString = inr token ->
    jwt.Method token = jwt.SigningMethodRSA alg ->
    jwt.Header token !! "kid" = Some (AnyString kid) ->
    publicKeys (ka w) !! kid = Some key ->
    fst (ValidateToken tokenString (snd (refreshPublicKeys w)))
    = fst (ValidateToken tokenString w).
Proof.
  intros Hf. pose proof (refresh_failure_keeps_cache _ _ Hf) as Hka.
  split; [exact Hka|].
  intros tokenString token alg kid key Hp Hm Hk Hc.
  destruct (refresh_frame w) as (Hnow & _).
  rewrite (ValidateToken_with_key _ _ _ _ _ _ Hp Hm Hk Hc).
  rewrite <- Hka in Hc.
  rewrite (ValidateToken_with_key _ _ _ _ _ _ Hp Hm Hk Hc).
  simpl. now rewrite Hka, Hnow.
Qed.

(** X2. Robustness per entry.  After a refresh whose response decodes, every
    listed entry of type RSA and use sig whose modulus and exponent
    decode is cached under its identifier, whatever entries around it
    fail to parse. *)
Theorem refreshPublicKeys_installs_every_parsable_entry w resp jwks key pubKey :
  http_Get (length (requests w)) (certs_url (ka w)) = inr resp ->
  json_Decode (http.Body resp) = inr jwks ->
  In key (Keys jwks) ->
  Kty key = "RSA" -> Use key = "sig" ->
  parseRSAPublicKey key = inr pubKey ->
  is_Some (publicKeys (ka (snd (refreshPublicKeys w))) !! Kid key).
Proof.
  intros Hg Hj Hin H1 H2 H3. rewrite refreshPublicKeys_eq. cbv zeta.
  rewrite Hg, Hj. simpl. now apply (install_keys_listed _ _ _ pubKey).
Qed.


(** *** The key set a refresh installs *)

Lemma install_keys_cons key rest m :
  install_keys (key :: rest) m =
  install_keys rest (match installable key with
                     | Some pubKey => <[Kid key := pubKey]> m
                     | None => m
                     end).
Proof.
  unfold installable. simpl.
  destruct (_ && _); [|reflexivity].
  destruct (parseRSAPublicKey key); reflexivity.
Qed.

Lemma install_keys_lookup keys : forall m kid,
  install_keys keys m !! kid =
  match advertised keys kid with
  | Some pubKey => Some pubKey
  | None => m !! kid
  end.
Proof.
  induction keys as [|key rest IH]; intros m kid; [reflexivity|].
  rewrite install_keys_cons, IH. simpl.
  destruct (advertised rest kid); [reflexivity|].
  destruct (installable key) as [pubKey|].
  - rewrite lookup_insert. case_decide as Hk.
    + now rewrite (bool_decide_eq_true_2 _ Hk).
    + now rewrite (bool_decide_eq_false_2 _ Hk).
  - now case_bool_decide.
Qed.

(** X3. After a refresh whose response decodes, the cache holds under
    every identifier the key of the last installable entry (type RSA, use
    sig, modulus and exponent that decode) the key set lists for it, and
    under an identifier with no such entry what it held before. *)
Theorem refreshPublicKeys_last_entry_wins w resp jwks :
  http_Get (length (requests w)) (certs_url (ka w)) = inr resp ->
  json_Decode (http.Body resp) = inr jwks ->
  forall kid,
    publicKeys (ka (snd (refreshPublicKeys w))) !! kid =
    match advertised (Keys jwks) kid with
    | Some pubKey => Some pubKey
    | None => publicKeys (ka w) !! kid
    end.
Proof.
  intros Hg Hj kid. rewrite refreshPublicKeys_eq. cbv zeta.
  rewrite Hg, Hj. simpl. apply install_keys_lookup.
Qed.

Lemma install_keys_twice keys m :
  install_keys keys (install_keys keys m) = install_keys keys m.
Proof.
  apply map_eq. intros kid. rewrite !install_keys_lookup.
  now destruct (advertised keys kid).
Qed.

(** X4. A refresh is idempotent: when the provider serves the same key
    set twice in a row, the second refresh leaves the cache as the first
    one left it. *)
Theorem refreshPublicKeys_idempotent w resp jwks :
  http_Get (length (requests w)) (certs_url (ka w)) = inr resp ->
  http_Get (S (length (requests w))) (certs_url (ka w)) = inr resp ->
  json_Decode (http.Body resp) = inr jwks ->
  fst (refreshPublicKeys (snd (refreshPublicKeys w))) = inr tt /\
  ka (snd (refreshPublicKeys (snd (refreshPublicKeys w)))) =
  ka (snd (refreshPublicKeys w)).
Proof.
  intros Hg1 Hg2 Hj.
  rewrite (refreshPublicKeys_eq w). cbv zeta. rewrite Hg1, Hj. simpl.
  rewrite refreshPublicKeys_eq. cbv zeta. simpl.
  change (certs_url (set_publicKeys _ (ka w))) with (certs_url (ka w)).
  rewrite Hg2, Hj. simpl. split; [reflexivity|].
  unfold set_publicKeys. simpl. now rewrite install_keys_twice.
Qed.

(** *** The public key of an entry *)

Lemma SetBytes_fold bs : forall acc,
  fold_left (fun a b => a * 256 + Z.of_N (Byte.to_N b)) bs acc =
  acc * 256 ^ Z.of_nat (length bs) + SetBytes bs.
Proof.
  unfold SetBytes.
  induction bs as [|b bs IH]; intros acc; [simpl; lia|].
  cbn [fold_left length]. rewrite (IH (acc * 256 + _)), (IH (0 * 256 + _)).
  rewrite Nat2Z.inj_succ, Z.pow_succ_r by lia. ring.
Qed.

Lemma SetBytes_cons b bs :
  SetBytes (b :: bs) = Z.of_N (Byte.to_N b) * 256 ^ Z.of_nat (length bs) + SetBytes bs.
Proof.
  unfold SetBytes at 1. cbn [fold_left]. rewrite SetBytes_fold. ring.
Qed.

Lemma SetBytes_range bs : 0 <= SetBytes bs < 256 ^ Z.of_nat (length bs).
Proof.
  induction bs as [|b bs IH]; [unfold SetBytes; simpl; lia|].
  rewrite SetBytes_cons. cbn [length]. rewrite Nat2Z.inj_succ, Z.pow_succ_r by lia.
  pose proof (Byte.to_N_bounded b) as Hb.
  assert (0 <= Z.of_N (Byte.to_N b) <= 255) by lia.
  nia.
Qed.

Lemma Int64_range x : - 2 ^ 63 <= Int64 x < 2 ^ 63.
Proof.
  unfold Int64. cbv zeta.
  pose proof (Z.mod_pos_bound x (2 ^ 64) ltac:(lia)) as H.
  destruct (Z.ltb_spec (x mod 2 ^ 64) (2 ^ 63)); lia.
Qed.

Lemma Int64_small x : 0 <= x < 2 ^ 63 -> Int64 x = x.
Proof.
  intros H. unfold Int64. cbv zeta. rewrite Z.mod_small by lia.
  destruct (Z.ltb_spec x (2 ^ 63)); lia.
Qed.

(** X5. [parseRSAPublicKey] succeeds exactly when modulus and exponent
    both decode.  The modulus is then the big-endian value of its bytes,
    never negative; the exponent always fits a signed 64-bit integer: it
    is the big-endian value of its bytes when they are at most seven, and
    that value wrapped modulo 2^64 otherwise. *)
Theorem parseRSAPublicKey_value jwk :
  match parseRSAPublicKey jwk with
  | inr pubKey =>
      exists nBytes eBytes,
        base64_DecodeString (N jwk) = inr nBytes /\
        base64_DecodeString (E jwk) = inr eBytes /\
        pk_N pubKey = SetBytes nBytes /\
        0 <= pk_N pubKey < 256 ^ Z.of_nat (length nBytes) /\
        - 2 ^ 63 <= pk_E pubKey < 2 ^ 63 /\
        (pk_E pubKey - SetBytes eBytes) mod 2 ^ 64 = 0 /\
        ((length eBytes <= 7)%nat -> pk_E pubKey = SetBytes eBytes)
  | inl err =>
      base64_DecodeString (N jwk) = inl err \/
      (is_ok (base64_DecodeString (N jwk)) = true /\
       base64_DecodeString (E jwk) = inl err)
  end.
Proof.
  unfold parseRSAPublicKey.
  destruct (base64_DecodeString (N jwk)) as [err|nBytes]; [now left|].
  destruct (base64_DecodeString (E jwk)) as [err|eBytes]; [now right|].
  exists nBytes, eBytes. cbn [pk_N pk_E].
  repeat split; try apply SetBytes_range; try apply Int64_range.
  - unfold Int64. cbv zeta.
    destruct (Z.ltb_spec (SetBytes eBytes mod 2 ^ 64) (2 ^ 63)).
    + rewrite Zminus_mod, Z.mod_mod, Z.sub_diag by lia. reflexivity.
    + replace (SetBytes eBytes mod 2 ^ 64 - 2 ^ 64 - SetBytes eBytes)
        with (SetBytes eBytes mod 2 ^ 64 - SetBytes eBytes + (-1) * 2 ^ 64) by ring.
      rewrite Z.mod_add by lia.
      rewrite Zminus_mod, Z.mod_mod, Z.sub_diag by lia. reflexivity.
  - intros Hlen. apply Int64_small.
    pose proof (SetBytes_range eBytes) as Hr.
    assert (256 ^ Z.of_nat (length eBytes) <= 256 ^ 7)
      by (apply Z.pow_le_mono_r; lia).
    lia.
Qed.

(** *** What a returned key and an accepted token guarantee *)

Lemma getPublicKey_returns_cached_key_aux kid w :
  (match fst (getPublicKey kid w) with
   | inr key => publicKeys (ka (snd (getPublicKey kid w))) !! kid = Some key
   | inl _ => publicKeys (ka (snd (getPublicKey kid w))) !! kid = None
   end) /\
  requests (snd (getPublicKey kid w)) =
    match publicKeys (ka w) !! kid with
    | Some _ => requests w
    | None => certs_url (ka w) :: requests w
    end /\
  verified (snd (getPublicKey kid w)) = verified w /\
  now (snd (getPublicKey kid w)) = now w /\
  config (ka (snd (getPublicKey kid w))) = config (ka w).
Proof.
  destruct (publicKeys (ka w) !! kid) as [key|] eqn:Hc.
  - rewrite (getPublicKey_cached _ _ _ Hc). simpl. auto.
  - rewrite (getPublicKey_missing _ _ Hc).
    destruct (refresh_frame w) as (Hnow & Hver & Hreq & Hcfg).
    pose proof (refresh_failure_keeps_cache w) as Hfail.
    destruct (refreshPublicKeys w) as [[err|u] w1]; simpl in *.
    + rewrite (Hfail err eq_refl). auto.
    + destruct (publicKeys (ka w1) !! kid) eqn:Hc1; simpl; auto.
Qed.

(** X6. [getPublicKey] returns a key exactly when the identifier is in the
    cache afterwards, and the key it returns is the cached one; it issues
    no request when the identifier was cached and one request otherwise,
    and it verifies nothing. *)
Theorem getPublicKey_returns_cached_key kid w :
  (match fst (getPublicKey kid w) with
   | inr key => publicKeys (ka (snd (getPublicKey kid w))) !! kid = Some key
   | inl _ => publicKeys (ka (snd (getPublicKey kid w))) !! kid = None
   end) /\
  requests (snd (getPublicKey kid w)) =
    match publicKeys (ka w) !! kid with
    | Some _ => requests w
    | None => certs_url (ka w) :: requests w
    end /\
  verified (snd (getPublicKey kid w)) = verified w.
Proof.
  destruct (getPublicKey_returns_cached_key_aux kid w) as (H1 & H2 & H3 & _).
  auto.
Qed.

Lemma keyFunc_inr token key w w1 :
  keyFunc token w = (inr key, w1) ->
  exists alg kid,
    jwt.Method token = jwt.SigningMethodRSA alg /\
    jwt.Header token !! "kid" = Some (AnyString kid) /\
    getPublicKey kid w = (inr key, w1).
Proof.
  unfold keyFunc, fail.
  destruct (jwt.Method token) as [alg| | | | |]; try discriminate.
  destruct (jwt.Header token !! "kid") as [[kid| | | |]|]; try discriminate.
  eauto.
Qed.

(** X7. [ValidateToken] accepts a token only if it parses, declares
    RS256, RS384 or RS512, names a key identifier that is in the cache
    afterwards, verifies under that key, is not expired, is past its
    not-before time, has the expected issuer and an accepted audience;
    the claims returned are the token's, exactly one signature check was
    made, and at most one request. *)
Theorem ValidateToken_accepts_only_valid_tokens tokenString claims w w' :
  ValidateToken tokenString w = (inr claims, w') ->
  exists token alg kid key,
    jwt_ParseUnverified tokenString = inr token /\
    jwt.Method token = jwt.SigningMethodRSA alg /\
    jwt.Header token !! "kid" = Some (AnyString kid) /\
    publicKeys (ka w') !! kid = Some key /\
    signature_verifies tokenString token key /\
    not_expired (Registered (jwt.Claims token)) (now w) /\
    not_before_satisfied (Registered (jwt.Claims token)) (now w) /\
    Issuer (Registered (jwt.Claims token)) = serverURL (ka w) ++ "/realms/" ++ realm (ka w) /\
    audience_accepted (ka w) (Audience (Registered (jwt.Claims token))) /\
    claims = jwt.Claims token /\
    verified w' = (jwt.Method token, key) :: verified w /\
    requests w' = match publicKeys (ka w) !! kid with
                  | Some _ => requests w
                  | None => certs_url (ka w) :: requests w
                  end.
Proof.
  intros Hv.
  destruct (jwt_ParseUnverified tokenString) as [err|token] eqn:Hp;
    [rewrite (ValidateToken_unparsed _ _ _ Hp) in Hv; discriminate|].
  rewrite (ValidateToken_parsed _ _ _ Hp) in Hv.
  destruct (keyFunc token w) as [[err|key] w1] eqn:Hk; [discriminate|].
  injection Hv as Hafter <-.
  apply keyFunc_inr in Hk as (alg & kid & Hm & Hkid & Hget).
  destruct (getPublicKey_returns_cached_key_aux kid w) as (Hcached & Hreq & Hver & Hnow & Hcfg).
  rewrite Hget in Hcached, Hreq, Hver, Hnow, Hcfg. simpl in *.
  apply after_key_inr in Hafter as (-> & Hs & He & Hn & Hi & Ha).
  exists token, alg, kid, key. rewrite Hnow in He, Hn.
  repeat split; auto.
  - rewrite Hi. now apply expectedIssuer_config.
  - exact (audience_accepted_config _ _ _ Hcfg Ha).
  - now rewrite Hver.
Qed.

(** X8. A token that declares an RSA method but whose header has no [kid],
    or one that is not a string, is rejected by the key function: nothing
    is looked up, fetched or verified. *)
Theorem ValidateToken_requires_kid tokenString token alg w :
  jwt_ParseUnverified tokenString = inr token ->
  jwt.Method token = jwt.SigningMethodRSA alg ->
  (forall kid, jwt.Header token !! "kid" <> Some (AnyString kid)) ->
  ValidateToken tokenString w =
  (inl (ErrParseToken (ErrTokenUnverifiable ErrKidMissing)), w).
Proof.
  intros Hp Hm Hk. rewrite (ValidateToken_parsed _ _ _ Hp).
  unfold keyFunc, fail. rewrite Hm.
  destruct (jwt.Header token !! "kid") as [[kid| | | |]|]; try reflexivity.
  now destruct (Hk kid).
Qed.

(** *** [GetUserInfo] *)

(** X9. [GetUserInfo] returns the user attributes exactly when the request
    can be built and is answered with status 200 and a body that decodes
    to them.  It leaves the validator, the clock and the verification
    history alone and issues at most one request, to the userinfo URL. *)
Theorem GetUserInfo_succeeds_iff ctx accessToken w :
  (forall userInfo,
     fst (GetUserInfo ctx accessToken w) = inr userInfo <->
     is_ok (http_NewRequestWithContext ctx "GET" (userinfo_url (ka w))) = true /\
     exists resp,
       http_Do (length (requests w)) ctx (userinfo_url (ka w))
               (userinfo_header accessToken) = inr resp /\
       http.StatusCode resp = 200 /\
       json_Decode_object (http.Body resp) = inr userInfo) /\
  ka (snd (GetUserInfo ctx accessToken w)) = ka w /\
  now (snd (GetUserInfo ctx accessToken w)) = now w /\
  verified (snd (GetUserInfo ctx accessToken w)) = verified w /\
  (requests (snd (GetUserInfo ctx accessToken w)) = requests w \/
   requests (snd (GetUserInfo ctx accessToken w)) = userinfo_url (ka w) :: requests w).
Proof.
  unfold GetUserInfo. cbv zeta.
  destruct (http_NewRequestWithContext _ _ _) as [e0|u]; simpl.
  { split; [|auto 6]. intros userInfo. split; [discriminate|].
    intros (H & _). discriminate. }
  destruct (http_Do _ _ _ _) as [e1|resp]; simpl.
  { split; [|auto 6]. intros userInfo. split; [discriminate|].
    intros (_ & r & H & _). discriminate. }
  case_bool_decide as Hs; simpl.
  { split; [|auto 6]. intros userInfo. split; [discriminate|].
    intros (_ & r & [= <-] & H200 & _). contradiction. }
  assert (H200 : http.StatusCode resp = 200)
    by (destruct (decide (http.StatusCode resp = 200)); [assumption | contradiction]).
  destruct (json_Decode_object _) as [e2|info] eqn:Hd; simpl.
  { split; [|auto 6]. intros userInfo. split; [discriminate|].
    intros (_ & r & [= <-] & _ & H). congruence. }
  split; [|auto 6]. intros userInfo. split.
  - intros [= <-]. split; [reflexivity|]. exists resp. auto.
  - intros (_ & r & [= <-] & _ & H). congruence.
Qed.

(** X10. [GetUserInfo] reads the status before the body: a response whose
    status is not 200 gives the status error, whatever the body holds. *)
Theorem GetUserInfo_rejects_other_status ctx accessToken w resp :
  is_ok (http_NewRequestWithContext ctx "GET" (userinfo_url (ka w))) = true ->
  http_Do (length (requests w)) ctx (userinfo_url (ka w))
          (userinfo_header accessToken) = inr resp ->
  http.StatusCode resp <> 200 ->
  fst (GetUserInfo ctx accessToken w) = inl (UserInfoStatus (http.StatusCode resp)).
Proof.
  intros Hn Hd Hs. unfold GetUserInfo. cbv zeta.
  destruct (http_NewRequestWithContext _ _ _); [discriminate|].
  rewrite Hd. now rewrite (bool_decide_eq_true_2 _ Hs).
Qed.

(** X11. The Authorization header [GetUserInfo] sends is one
    [ExtractBearerToken] reads back: it returns the access token when the
    token has no space in it, and the format error otherwise. *)
Theorem userinfo_header_round_trip k accessToken :
  ExtractBearerToken k {| http.Header := userinfo_header accessToken |} =
  if strings.ContainsByte accessToken " " then inl ErrAuthHeaderFormat
  else inr accessToken.
Proof.
  destruct (strings.ContainsByte accessToken " ") eqn:Hc.
  - destruct (ExtractBearerToken k _) as [err|t] eqn:He.
    + unfold ExtractBearerToken, Header_Get, userinfo_header in He.
      cbv zeta in He. simpl http.Header in He.
      rewrite lookup_insert_eq in He.
      rewrite bool_decide_eq_false_2 in He by discriminate.
      destruct (strings.Split _ _) as [|p0 [|p1 [|? ?]]]; try (now injection He as <-).
      case_bool_decide; [now injection He as <- | discriminate].
    + apply ExtractBearerToken_inr in He as (rest & Hh & Ht).
      unfold userinfo_header in Hh. simpl in Hh.
      change (textproto.CanonicalMIMEHeaderKey "Authorization") with "Authorization" in Hh.
      rewrite lookup_insert_eq in Hh. injection Hh as Hh _.
      assert (accessToken = t) as -> by exact Hh.
      congruence.
  - apply ExtractBearerToken_inr. exists []. split; [|assumption].
    unfold userinfo_header. simpl.
    change (textproto.CanonicalMIMEHeaderKey "Authorization") with "Authorization".
    now rewrite lookup_insert_eq.
Qed.

(** *** The authentication middleware *)

Lemma Value_authenticated ctx claims key :
  middleware.Value (middleware.authenticated ctx claims) key =
  if bool_decide ("keycloak_claims" = key) then Some (middleware.VClaims claims)
  else if bool_decide (middleware.EmailKey = key)
       then Some (middleware.VString (Email claims))
  else if bool_decide (middleware.UserIDKey = key)
       then Some (middleware.VString (Subject (Registered claims)))
  else middleware.Value ctx key.
Proof. reflexivity. Qed.

Lemma respondJSONError_fresh rw code message :
  middleware.status rw = None ->
  let rw' := middleware.respondJSONError rw code message in
  middleware.status rw' = Some code /\
  middleware.sent rw' !! "Content-Type" = Some ["application/json"] /\
  middleware.body rw' =
    middleware.body rw ++ "{" ++ middleware.dq ++ "success" ++ middleware.dq ++ ":false,"
      ++ middleware.dq ++ "error" ++ middleware.dq ++ ":"
      ++ middleware.dq ++ message ++ middleware.dq ++ "}".
Proof.
  intros Hs. unfold middleware.respondJSONError, middleware.Write, middleware.WriteHeader,
    middleware.Header_Set. cbn. rewrite Hs. cbn.
  change (textproto.CanonicalMIMEHeaderKey "Content-Type") with "Content-Type".
  rewrite lookup_insert_eq. auto.
Qed.

Lemma HasRole_config k k' claims role :
  config k = config k' -> HasRole k claims role = HasRole k' claims role.
Proof. unfold config, HasRole. now intros [= _ _ -> _]. Qed.

Lemma Authenticate_admitted next r rw e tokenString claims w1 :
  ExtractBearerToken (ka (middleware.world e)) (middleware.Base r) = inr tokenString ->
  ValidateToken tokenString (middleware.world e) = (inr claims, w1) ->
  Authenticate next r rw e =
  next (middleware.WithContext r (middleware.authenticated (middleware.Ctx r) claims)) rw
       {| middleware.world := w1; middleware.logged := middleware.logged e |}.
Proof. intros He Hv. unfold Authenticate. now rewrite He, Hv. Qed.

(** X12. When the request carries a bearer token that [ValidateToken]
    accepts, [Authenticate] hands the same request on with a context in
    which the user identifier is the token's subject, the email the
    token's email and the claims the token's claims, whatever the
    incoming context held under those keys; every other key of the
    context is kept. *)
Theorem Authenticate_identifies_user next r rw e tokenString claims w1 :
  ExtractBearerToken (ka (middleware.world e)) (middleware.Base r) = inr tokenString ->
  ValidateToken tokenString (middleware.world e) = (inr claims, w1) ->
  exists r',
    Authenticate next r rw e =
    next r' rw {| middleware.world := w1; middleware.logged := middleware.logged e |} /\
    middleware.Base r' = middleware.Base r /\
    middleware.Value (middleware.Ctx r') middleware.UserIDKey
    = Some (middleware.VString (Subject (Registered claims))) /\
    middleware.Value (middleware.Ctx r') middleware.EmailKey
    = Some (middleware.VString (Email claims)) /\
    middleware.Value (middleware.Ctx r') "keycloak_claims"
    = Some (middleware.VClaims claims) /\
    forall key,
      key <> middleware.UserIDKey -> key <> middleware.EmailKey ->
      key <> "keycloak_claims" ->
      middleware.Value (middleware.Ctx r') key = middleware.Value (middleware.Ctx r) key.
Proof.
  intros He Hv. eexists. split; [exact (Authenticate_admitted _ _ _ _ _ _ _ He Hv)|].
  repeat split.
  intros key H1 H2 H3. cbn [middleware.Ctx middleware.WithContext].
  rewrite Value_authenticated.
  rewrite !bool_decide_eq_false_2 by congruence. reflexivity.
Qed.

(** X13. When the request carries no bearer token that [ValidateToken]
    accepts, [Authenticate] never reaches the next handler: it answers
    with one of two fixed messages, which do not tell why a token was
    refused, and on a response not yet started the status is 401, the
    content type JSON and the body the error object. *)
Theorem Authenticate_rejects_with_401 r rw e :
  (forall tokenString,
     ExtractBearerToken (ka (middleware.world e)) (middleware.Base r) = inr tokenString ->
     is_ok (fst (ValidateToken tokenString (middleware.world e))) = false) ->
  exists message e',
    (forall next,
       Authenticate next r rw e
       = (middleware.respondJSONError rw middleware.StatusUnauthorized message, e')) /\
    (message = "Missing or invalid authorization header" \/
     message = "Invalid or expired token") /\
    (middleware.status rw = None ->
     middleware.status (middleware.respondJSONError rw middleware.StatusUnauthorized message)
     = Some 401 /\
     middleware.sent (middleware.respondJSONError rw middleware.StatusUnauthorized message)
       !! "Content-Type" = Some ["application/json"] /\
     middleware.body (middleware.respondJSONError rw middleware.StatusUnauthorized message)
     = middleware.body rw ++ "{" ++ middleware.dq ++ "success" ++ middleware.dq ++ ":false,"
         ++ middleware.dq ++ "error" ++ middleware.dq ++ ":"
         ++ middleware.dq ++ message ++ middleware.dq ++ "}").
Proof.
  intros Hno. unfold Authenticate.
  destruct (ExtractBearerToken _ _) as [err|tokenString] eqn:He.
  - do 2 eexists. split; [reflexivity|]. split; [now left|].
    intros Hs. now apply respondJSONError_fresh.
  - specialize (Hno tokenString eq_refl).
    destruct (ValidateToken tokenString _) as [[err|claims] w1]; [|discriminate].
    do 2 eexists. split; [reflexivity|]. split; [now right|].
    intros Hs. now apply respondJSONError_fresh.
Qed.

(** X14. [Authenticate] followed by [RequireRole]: for a request whose
    bearer token validates, the next handler is reached exactly when the
    claims of the token hold the role, and the answer is 403 otherwise;
    the 401 of [RequireRole] cannot occur behind [Authenticate]. *)
Theorem Authenticate_then_RequireRole role next r rw e tokenString claims w1 :
  ExtractBearerToken (ka (middleware.world e)) (middleware.Base r) = inr tokenString ->
  ValidateToken tokenString (middleware.world e) = (inr claims, w1) ->
  Authenticate (RequireRole role next) r rw e =
  if HasRole (ka (middleware.world e)) claims role
  then next (middleware.WithContext r (middleware.authenticated (middleware.Ctx r) claims)) rw
            {| middleware.world := w1; middleware.logged := middleware.logged e |}
  else (middleware.respondJSONError rw middleware.StatusForbidden "Insufficient permissions",
        {| middleware.world := w1; middleware.logged := middleware.logged e |}).
Proof.
  intros He Hv. rewrite (Authenticate_admitted _ _ _ _ _ _ _ He Hv).
  unfold RequireRole.
  cbn [middleware.Ctx middleware.WithContext middleware.world].
  rewrite Value_authenticated, bool_decide_eq_true_2 by reflexivity.
  pose proof (evolves_ValidateToken tokenString (middleware.world e)) as (Hcfg & _).
  rewrite Hv in Hcfg. simpl in Hcfg.
  rewrite (HasRole_config _ _ claims role Hcfg).
  now destruct (HasRole _ _ _).
Qed.

Lemma has_any_role_true k claims roles :
  has_any_role k claims roles = true <->
  exists role, In role roles /\ HasRole k claims role = true.
Proof.
  induction roles as [|role rest IH]; simpl.
  - split; [discriminate | intros (? & [] & _)].
  - destruct (HasRole k claims role) eqn:Hr.
    + split; eauto.
    + rewrite IH. split.
      * intros (x & Hin & Hx). eauto.
      * intros (x & [<- | Hin] & Hx); [congruence | eauto].
Qed.

(** X15. [RequireAnyRole] on an authenticated request reaches the next
    handler exactly when the claims hold one of the roles, and answers
    403 otherwise, so always 403 for an empty list of roles; on a request
    without claims in its context it answers 401, whatever the roles. *)
Theorem RequireAnyRole_admits_some_role roles next r rw e :
  match middleware.Value (middleware.Ctx r) "keycloak_claims" with
  | Some (middleware.VClaims claims) =>
      ((exists role, In role roles /\
                     HasRole (ka (middleware.world e)) claims role = true) ->
       RequireAnyRole roles next r rw e = next r rw e) /\
      ((forall role, In role roles ->
                     HasRole (ka (middleware.world e)) claims role = false) ->
       RequireAnyRole roles next r rw e =
       (middleware.respondJSONError rw middleware.StatusForbidden
          "Insufficient permissions", e))
  | _ =>
      RequireAnyRole roles next r rw e =
      (middleware.respondJSONError rw middleware.StatusUnauthorized
         "Authentication required", e)
  end.
Proof.
  unfold RequireAnyRole.
  destruct (middleware.Value _ _) as [[s|claims|]|]; try reflexivity.
  cbv zeta. split.
  - intros H. apply has_any_role_true in H. now rewrite H.
  - intros H.
    destruct (has_any_role _ claims roles) eqn:Ha; [|reflexivity].
    apply has_any_role_true in Ha as (role & Hin & Hr).
    rewrite (H role Hin) in Hr. discriminate.
Qed.

(** X16. [RequireRole role] and [RequireAnyRole] of the one role are the
    same middleware. *)
Theorem RequireRole_is_RequireAnyRole_of_one role next r rw e :
  RequireRole role next r rw e = RequireAnyRole [role] next r rw e.
Proof.
  unfold RequireRole, RequireAnyRole.
  destruct (middleware.Value _ _) as [[s|claims|]|]; try reflexivity.
  cbn. now destruct (HasRole _ _ _).
Qed.

(** X17. [OptionalAuth] always hands the request to the next handler,
    never answers itself and never logs: with the context [Authenticate]
    would give it when the bearer token validates, and unchanged when
    there is no well-formed bearer header or the token is refused. *)
Theorem OptionalAuth_never_rejects next r rw e :
  OptionalAuth next r rw e =
  match ExtractBearerToken (ka (middleware.world e)) (middleware.Base r) with
  | inl _ => next r rw e
  | inr tokenString =>
      match ValidateToken tokenString (middleware.world e) with
      | (inl _, w1) =>
          next r rw {| middleware.world := w1; middleware.logged := middleware.logged e |}
      | (inr _, _) => Authenticate next r rw e
      end
  end.
Proof.
  unfold OptionalAuth, Authenticate, ExtractBearerToken. cbv zeta.
  case_bool_decide; [reflexivity|].
  destruct (strings.Split _ _) as [|p0 [|p1 [|? ?]]]; try reflexivity.
  case_bool_decide; [reflexivity|].
  destruct (ValidateToken p1 _) as [[err|claims] w1]; reflexivity.
Qed.

(** X18. [Chain] nests the middlewares in the order given, the first one
    outermost: chaining a list is wrapping the handler with its last
    middleware first, and chaining two lists one after the other is
    chaining the second list, then the first around it. *)
Theorem Chain_nests h :
  (forall middlewares,
     middleware.Chain h middlewares = fold_right (fun m next => m next) h middlewares) /\
  (forall m middlewares,
     middleware.Chain h (m :: middlewares) = m (middleware.Chain h middlewares)) /\
  (forall first second,
     middleware.Chain h (first ++ second)
     = middleware.Chain (middleware.Chain h second) first).
Proof.
  assert (Hloop : forall front tail g,
            middleware.Chain_loop (front ++ tail) (length front) g
            = fold_right (fun m next => m next) g front).
  { intros front. induction front as [|m front IH] using rev_ind; intros tail g.
    - reflexivity.
    - rewrite length_app, Nat.add_1_r. cbn [middleware.Chain_loop].
      rewrite <- app_assoc. cbn [app]. unfold middleware.Middleware in *.
      rewrite (list_lookup_middle front tail m (length front) eq_refl).
      rewrite IH, fold_right_app. reflexivity. }
  assert (Hfold : forall g middlewares,
            middleware.Chain g middlewares
            = fold_right (fun m next => m next) g middlewares).
  { intros g middlewares. unfold middleware.Chain.
    rewrite <- (app_nil_r middlewares) at 1. apply Hloop. }
  split; [apply Hfold|]. split.
  - intros m middlewares. now rewrite !Hfold.
  - intros first second. now rewrite !Hfold, fold_right_app.
Qed.

(** *** The rate limiter *)

Lemma getVisitor_spec rl ip t :
  let v := fst (middleware.getVisitor rl ip t) in
  let rl' := snd (middleware.getVisitor rl ip t) in
  middleware.visitors rl' !! ip = Some v /\
  (forall ip', ip' <> ip ->
     middleware.visitors rl' !! ip' = middleware.visitors rl !! ip') /\
  middleware.limit rl' = middleware.limit rl /\
  middleware.window rl' = middleware.window rl.
Proof.
  unfold middleware.getVisitor. cbv zeta.
  destruct (middleware.visitors rl !! ip) as [v|] eqn:Hv; cbn.
  - destruct (_ <? _); cbn.
    + split; [apply lookup_insert_eq|]. split; [|auto].
      intros ip' Hne. now rewrite lookup_insert_ne.
    + auto.
  - destruct (_ <? _); cbn.
    + split; [apply lookup_insert_eq|]. split; [|auto].
      intros ip' Hne. now rewrite !lookup_insert_ne.
    + split; [apply lookup_insert_eq|]. split; [|auto].
      intros ip' Hne. now rewrite lookup_insert_ne.
Qed.

(** What [getVisitor] returns, from the entry of the address alone. *)
Lemma getVisitor_value rl ip t :
  fst (middleware.getVisitor rl ip t) =
  let v := match middleware.visitors rl !! ip with
           | Some v => v
           | None => {| middleware.tokens := middleware.limit rl;
                        middleware.lastReset := middleware.at_new t |}
           end in
  if middleware.window rl <? middleware.Since (middleware.at_since t) (middleware.lastReset v)
  then {| middleware.tokens := middleware.limit rl;
          middleware.lastReset := middleware.at_reset t |}
  else v.
Proof.
  unfold middleware.getVisitor. cbv zeta.
  destruct (middleware.visitors rl !! ip) as [v|]; cbn; now destruct (_ <? _).
Qed.

Lemma allow_spec rl ip t :
  let v := fst (middleware.getVisitor rl ip t) in
  let rl' := snd (middleware.allow rl ip t) in
  fst (middleware.allow rl ip t) = (0 <? middleware.tokens v) /\
  middleware.visitors rl' !! ip =
    Some (if 0 <? middleware.tokens v
          then {| middleware.tokens := middleware.tokens v - 1;
                  middleware.lastReset := middleware.lastReset v |}
          else v) /\
  (forall ip', ip' <> ip ->
     middleware.visitors rl' !! ip' = middleware.visitors rl !! ip') /\
  middleware.limit rl' = middleware.limit rl /\
  middleware.window rl' = middleware.window rl.
Proof.
  cbv zeta. unfold middleware.allow.
  destruct (getVisitor_spec rl ip t) as (Hv & Hother & Hl & Hw). cbv zeta in *.
  destruct (middleware.getVisitor rl ip t) as [v rl1]. cbn in *.
  destruct (0 <? middleware.tokens v); cbn.
  - split; [reflexivity|]. split; [apply lookup_insert_eq|]. split; [|auto].
    intros ip' Hne. rewrite lookup_insert_ne by congruence. auto.
  - auto.
Qed.

Lemma getVisitor_within_limit rl ip t :
  (forall v, middleware.visitors rl !! ip = Some v ->
             middleware.tokens v <= middleware.limit rl) ->
  middleware.tokens (fst (middleware.getVisitor rl ip t)) <= middleware.limit rl.
Proof.
  intros H. rewrite getVisitor_value. cbv zeta.
  destruct (_ <? _); cbn; [lia|].
  destruct (middleware.visitors rl !! ip) as [v|]; cbn; [auto | lia].
Qed.

Lemma allow_touches_one_bucket_aux rl ip t :
  (forall ip' v, middleware.visitors rl !! ip' = Some v ->
                 middleware.tokens v <= middleware.limit rl) ->
  forall ip' v, middleware.visitors (snd (middleware.allow rl ip t)) !! ip' = Some v ->
                middleware.tokens v <= middleware.limit rl.
Proof.
  destruct (allow_spec rl ip t) as (_ & Hip & Hother & Hl & Hw). cbv zeta in *.
  intros Hinv ip' v Hv.
  destruct (decide (ip' = ip)) as [->|Hne].
  - rewrite Hip in Hv. injection Hv as <-.
    pose proof (getVisitor_within_limit rl ip t (Hinv ip)) as Hle.
    destruct (0 <? _); cbn; lia.
  - rewrite (Hother ip' Hne) in Hv. eauto.
Qed.

(** X19. [allow] touches the bucket of its address only: the buckets of
    all other addresses, the limit and the window are as before.  The
    address has a bucket afterwards, and no bucket ever holds more tokens
    than the limit if none did before. *)
Theorem allow_touches_one_bucket rl ip t :
  middleware.limit (snd (middleware.allow rl ip t)) = middleware.limit rl /\
  middleware.window (snd (middleware.allow rl ip t)) = middleware.window rl /\
  (forall ip', ip' <> ip ->
     middleware.visitors (snd (middleware.allow rl ip t)) !! ip'
     = middleware.visitors rl !! ip') /\
  is_Some (middleware.visitors (snd (middleware.allow rl ip t)) !! ip) /\
  ((forall ip' v, middleware.visitors rl !! ip' = Some v ->
                  middleware.tokens v <= middleware.limit rl) ->
   forall ip' v, middleware.visitors (snd (middleware.allow rl ip t)) !! ip' = Some v ->
                 middleware.tokens v <= middleware.limit rl).
Proof.
  destruct (allow_spec rl ip t) as (_ & Hip & Hother & Hl & Hw). cbv zeta in *.
  split; [exact Hl|]. split; [exact Hw|]. split; [exact Hother|]. split.
  - rewrite Hip. eauto.
  - apply allow_touches_one_bucket_aux.
Qed.

Lemma allow_all_cons rl ip t rest :
  middleware.allow_all rl ((ip, t) :: rest) =
  (fst (middleware.allow rl ip t)
     :: fst (middleware.allow_all (snd (middleware.allow rl ip t)) rest),
   snd (middleware.allow_all (snd (middleware.allow rl ip t)) rest)).
Proof.
  cbn. destruct (middleware.allow rl ip t) as [ok rl1]. cbn.
  now destruct (middleware.allow_all rl1 rest).
Qed.

Lemma asked_nonneg ip calls : 0 <= middleware.asked ip calls.
Proof.
  induction calls as [|[ip' t] rest IH]; cbn; [lia|].
  case_bool_decide; lia.
Qed.

(** X20. As long as the bucket of an address is not due for a reset, the
    address is granted exactly as many requests as the bucket holds
    tokens, however its calls are mixed with calls for other addresses:
    the number granted is the smaller of the tokens and the number of
    calls. *)
Theorem allow_all_spends_the_bucket calls : forall rl ip v0,
  middleware.visitors rl !! ip = Some v0 ->
  0 <= middleware.tokens v0 ->
  (forall t, In (ip, t) calls ->
     middleware.Since (middleware.at_since t) (middleware.lastReset v0)
     <= middleware.window rl) ->
  middleware.granted ip calls (fst (middleware.allow_all rl calls))
  = Z.min (middleware.tokens v0) (middleware.asked ip calls).
Proof.
  induction calls as [|[ip' t] rest IH]; intros rl ip v0 Hv Hk Hno.
  - cbn. lia.
  - rewrite allow_all_cons. cbn [fst middleware.granted middleware.asked].
    destruct (allow_spec rl ip' t) as (Hok & Hip & Hother & _ & Hw). cbv zeta in *.
    assert (Hrest : forall t0, In (ip, t0) rest ->
              middleware.Since (middleware.at_since t0) (middleware.lastReset v0)
              <= middleware.window (snd (middleware.allow rl ip' t))).
    { intros t0 Hin. rewrite Hw. apply Hno. now right. }
    case_bool_decide as Heq.
    + subst ip'. rewrite Hok, getVisitor_value in *. cbv zeta in *. rewrite Hv in *.
      specialize (Hno t (or_introl eq_refl)).
      destruct (Z.ltb_spec (middleware.window rl)
                  (middleware.Since (middleware.at_since t) (middleware.lastReset v0)));
        [lia|].
      destruct (Z.ltb_spec 0 (middleware.tokens v0)) as [Hpos|Hzero].
      * cbn [andb]. rewrite (IH _ ip _ Hip) by (cbn; auto; lia). cbn. lia.
      * cbn [andb]. rewrite (IH _ ip _ Hip) by auto.
        pose proof (asked_nonneg ip rest). lia.
    + cbn [andb].
      rewrite (IH (snd (middleware.allow rl ip' t)) ip v0); auto.
      rewrite (Hother ip) by congruence. exact Hv.
Qed.

Lemma allow_refills_first_aux rl ip t :
  (middleware.visitors rl !! ip = None \/
   exists v, middleware.visitors rl !! ip = Some v /\
             middleware.window rl
             < middleware.Since (middleware.at_since t) (middleware.lastReset v)) ->
  fst (middleware.allow rl ip t) = (0 <? middleware.limit rl).
Proof.
  intros Hcase.
  assert (Ht : middleware.tokens (fst (middleware.getVisitor rl ip t))
               = middleware.limit rl).
  { rewrite getVisitor_value. cbv zeta.
    destruct Hcase as [-> | (v & -> & Hold)].
    - destruct (_ <? _); reflexivity.
    - apply Z.ltb_lt in Hold. rewrite Hold. reflexivity. }
  destruct (allow_spec rl ip t) as (Hok & _). cbv zeta in *.
  now rewrite Hok, Ht.
Qed.

(** X21. A request from an address that has no bucket yet, or whose
    bucket is older than the window, finds a full bucket: it is granted
    exactly when the limit is positive, and the bucket is left with the
    limit less the token spent. *)
Theorem allow_refills_first rl ip t :
  (middleware.visitors rl !! ip = None \/
   exists v, middleware.visitors rl !! ip = Some v /\
             middleware.window rl
             < middleware.Since (middleware.at_since t) (middleware.lastReset v)) ->
  fst (middleware.allow rl ip t) = (0 <? middleware.limit rl) /\
  exists v', middleware.visitors (snd (middleware.allow rl ip t)) !! ip = Some v' /\
             middleware.tokens v' = if 0 <? middleware.limit rl
                                    then middleware.limit rl - 1
                                    else middleware.limit rl.
Proof.
  intros Hcase.
  assert (Ht : middleware.tokens (fst (middleware.getVisitor rl ip t))
               = middleware.limit rl).
  { rewrite getVisitor_value. cbv zeta.
    destruct Hcase as [-> | (v & -> & Hold)].
    - destruct (_ <? _); reflexivity.
    - apply Z.ltb_lt in Hold. rewrite Hold. reflexivity. }
  destruct (allow_spec rl ip t) as (Hok & Hip & _). cbv zeta in *.
  rewrite Hok, Hip, Ht. split; [reflexivity|].
  eexists. split; [reflexivity|].
  destruct (0 <? middleware.limit rl); cbn; [reflexivity | exact Ht].
Qed.

Lemma allow_all_refused rl calls :
  middleware.limit rl <= 0 ->
  (forall ip v, middleware.visitors rl !! ip = Some v ->
                middleware.tokens v <= middleware.limit rl) ->
  Forall (fun ok => ok = false) (fst (middleware.allow_all rl calls)).
Proof.
  revert rl. induction calls as [|[ip t] rest IH]; intros rl Hl Hinv; [constructor|].
  rewrite allow_all_cons. cbn [fst].
  destruct (allow_spec rl ip t) as (Hok & _ & _ & Hl' & _). cbv zeta in *.
  pose proof (getVisitor_within_limit rl ip t (Hinv ip)) as Hle.
  constructor.
  - rewrite Hok. apply Z.ltb_ge. lia.
  - apply IH; [lia|].
    intros ip' v Hv. rewrite Hl'.
    exact (allow_touches_one_bucket_aux rl ip t Hinv ip' v Hv).
Qed.

(** X22. A limiter made with a limit of zero or less grants nothing: every
    call of every run is refused. *)
Theorem NewRateLimiter_without_budget requestsPerMinute calls :
  requestsPerMinute <= 0 ->
  Forall (fun ok => ok = false)
         (fst (middleware.allow_all (middleware.NewRateLimiter requestsPerMinute) calls)).
Proof.
  intros Hl. apply allow_all_refused; [exact Hl|].
  intros ip v Hv. cbn in Hv. rewrite lookup_empty in Hv. discriminate.
Qed.

Lemma Since_in_span rl start a b :
  0 <= middleware.window rl <= middleware.maxDuration ->
  start <= a <= start + middleware.window rl ->
  start <= b <= start + middleware.window rl ->
  middleware.Since a b <= middleware.window rl.
Proof.
  intros Hw Ha Hb. unfold middleware.Since, middleware.Sub. cbv zeta.
  unfold middleware.maxDuration, middleware.minDuration in *.
  destruct (Z.ltb_spec (a - b) (- 2 ^ 63)); [lia|].
  destruct (Z.ltb_spec (2 ^ 63 - 1) (a - b)); lia.
Qed.

Lemma young_true start w x :
  start <= x <= start + w -> (start <=? x) && (x <=? start + w) = true.
Proof. intros H. apply andb_true_iff. split; apply Z.leb_le; lia. Qed.

Lemma budget_step rl ip start t :
  0 <= middleware.window rl <= middleware.maxDuration ->
  middleware.in_span rl start t ->
  (if fst (middleware.allow rl ip t) then 1 else 0)
  + middleware.budget (snd (middleware.allow rl ip t)) ip start
  <= middleware.budget rl ip start.
Proof.
  intros Hw (Hnew & Hsince & Hreset).
  destruct (allow_spec rl ip t) as (Hok & Hip & _ & Hl & Hw'). cbv zeta in *.
  unfold middleware.budget. rewrite Hip, Hl, Hw', Hok, getVisitor_value. cbv zeta.
  clear Hok Hip Hl Hw'.
  destruct (middleware.visitors rl !! ip) as [v|].
  - destruct (Z.ltb_spec (middleware.window rl)
                (middleware.Since (middleware.at_since t) (middleware.lastReset v)))
      as [Hold|Hyoung].
    + assert (Hout : (start <=? middleware.lastReset v)
                     && (middleware.lastReset v <=? start + middleware.window rl)
                     = false).
      { destruct (_ && _) eqn:E; [|reflexivity].
        apply andb_true_iff in E as [E1 E2]. apply Z.leb_le in E1, E2.
        pose proof (Since_in_span rl start _ (middleware.lastReset v) Hw Hsince
                      (conj E1 E2)). lia. }
      rewrite Hout. cbn [middleware.tokens middleware.lastReset].
      destruct (Z.ltb_spec 0 (middleware.limit rl));
        cbn [middleware.tokens middleware.lastReset];
        rewrite (young_true _ _ _ Hreset); lia.
    + destruct (Z.ltb_spec 0 (middleware.tokens v));
        cbn [middleware.tokens middleware.lastReset];
        destruct ((start <=? middleware.lastReset v)
                  && (middleware.lastReset v <=? start + middleware.window rl));
        lia.
  - cbn [middleware.tokens middleware.lastReset].
    pose proof (Since_in_span rl start _ _ Hw Hsince Hnew) as Hno.
    destruct (Z.ltb_spec (middleware.window rl)
                (middleware.Since (middleware.at_since t) (middleware.at_new t)));
      [lia|].
    cbn [middleware.tokens middleware.lastReset].
    destruct (Z.ltb_spec 0 (middleware.limit rl));
      cbn [middleware.tokens middleware.lastReset];
      rewrite (young_true _ _ _ Hnew); lia.
Qed.

Lemma budget_other rl ip ip' start t :
  ip' <> ip ->
  middleware.budget (snd (middleware.allow rl ip' t)) ip start
  = middleware.budget rl ip start.
Proof.
  intros Hne.
  destruct (allow_spec rl ip' t) as (_ & _ & Hother & Hl & Hw). cbv zeta in *.
  unfold middleware.budget. now rewrite (Hother ip) by congruence; rewrite Hl, Hw.
Qed.

Lemma budget_nonneg rl ip start : 0 <= middleware.budget rl ip start.
Proof.
  unfold middleware.budget.
  destruct (middleware.visitors rl !! ip); [destruct (_ && _)|]; lia.
Qed.

Lemma granted_within_budget start ip calls : forall rl,
  0 <= middleware.window rl <= middleware.maxDuration ->
  (forall t, In (ip, t) calls -> middleware.in_span rl start t) ->
  middleware.granted ip calls (fst (middleware.allow_all rl calls))
  <= middleware.budget rl ip start.
Proof.
  induction calls as [|[ip' t] rest IH]; intros rl Hw Hspan.
  - cbn. apply budget_nonneg.
  - rewrite allow_all_cons. cbn [fst middleware.granted].
    destruct (allow_spec rl ip' t) as (_ & _ & _ & _ & Hw'). cbv zeta in *.
    assert (Hrest : middleware.granted ip rest
                      (fst (middleware.allow_all (snd (middleware.allow rl ip' t)) rest))
                    <= middleware.budget (snd (middleware.allow rl ip' t)) ip start).
    { apply IH; [now rewrite Hw'|].
      intros t0 Hin. unfold middleware.in_span. rewrite Hw'. apply Hspan. now right. }
    case_bool_decide as Heq.
    + subst ip'.
      pose proof (budget_step rl ip start t Hw (Hspan t (or_introl eq_refl))) as Hstep.
      destruct (fst (middleware.allow rl ip t)); cbn [andb]; lia.
    + cbn [andb]. rewrite (budget_other rl ip ip' start t Heq) in Hrest. lia.
Qed.

(** X23. While all the clock readings stay within one window, an address
    is granted at most twice the limit, whatever calls are made and in
    whatever order: what its old bucket still held, and one full bucket.
    An address that had no bucket is granted at most the limit. *)
Theorem allow_all_burst_bound rl ip start calls :
  0 <= middleware.limit rl ->
  0 <= middleware.window rl <= middleware.maxDuration ->
  (forall v, middleware.visitors rl !! ip = Some v ->
             middleware.tokens v <= middleware.limit rl) ->
  (forall t, In (ip, t) calls -> middleware.in_span rl start t) ->
  middleware.granted ip calls (fst (middleware.allow_all rl calls))
  <= 2 * middleware.limit rl /\
  (middleware.visitors rl !! ip = None ->
   middleware.granted ip calls (fst (middleware.allow_all rl calls))
   <= middleware.limit rl).
Proof.
  intros Hl Hw Hinv Hspan.
  pose proof (granted_within_budget start ip calls rl Hw Hspan) as Hb.
  unfold middleware.budget in Hb.
  destruct (middleware.visitors rl !! ip) as [v|].
  - specialize (Hinv v eq_refl). split; [|discriminate].
    destruct (_ && _); lia.
  - split; [lia | intros _; lia].
Qed.

Lemma Sub_monotone a a' b : a <= a' -> middleware.Sub a b <= middleware.Sub a' b.
Proof.
  intros H. unfold middleware.Sub, middleware.minDuration, middleware.maxDuration.
  cbv zeta.
  destruct (Z.ltb_spec (a - b) (- 2 ^ 63)), (Z.ltb_spec (a' - b) (- 2 ^ 63));
    try destruct (Z.ltb_spec (2 ^ 63 - 1) (a - b));
    try destruct (Z.ltb_spec (2 ^ 63 - 1) (a' - b)); lia.
Qed.

(** X24. [cleanup] leaves the limit and the window alone and only
    removes buckets: it keeps, as they are, exactly the buckets last
    reset no more than ten minutes before the reading taken at them; for
    a window of ten minutes at most, the next request of any address
    gets the answer it would have got without the clean-up. *)
Theorem cleanup_is_invisible rl reading :
  middleware.limit (middleware.cleanup rl reading) = middleware.limit rl /\
  middleware.window (middleware.cleanup rl reading) = middleware.window rl /\
  (forall ip' v,
     middleware.visitors (middleware.cleanup rl reading) !! ip' = Some v <->
     middleware.visitors rl !! ip' = Some v /\
     middleware.Since (reading ip') (middleware.lastReset v) <= 10 * middleware.Minute) /\
  (forall ip t,
     middleware.window rl <= 10 * middleware.Minute ->
     reading ip <= middleware.at_since t ->
     fst (middleware.allow (middleware.cleanup rl reading) ip t)
     = fst (middleware.allow rl ip t)).
Proof.
  assert (Hlookup : forall ip' v,
            middleware.visitors (middleware.cleanup rl reading) !! ip' = Some v <->
            middleware.visitors rl !! ip' = Some v /\
            middleware.Since (reading ip') (middleware.lastReset v)
            <= 10 * middleware.Minute).
  { intros ip' v. unfold middleware.cleanup. cbn.
    rewrite map_lookup_filter_Some. cbn. split; intros [? ?]; split; auto; lia. }
  split; [reflexivity|]. split; [reflexivity|]. split; [exact Hlookup|].
  intros ip t Hw Hlater.
  destruct (allow_spec rl ip t) as (-> & _).
  destruct (allow_spec (middleware.cleanup rl reading) ip t) as (-> & _).
  rewrite !getVisitor_value. cbv zeta.
  change (middleware.limit (middleware.cleanup rl reading)) with (middleware.limit rl).
  change (middleware.window (middleware.cleanup rl reading)) with (middleware.window rl).
  destruct (middleware.visitors rl !! ip) as [v|] eqn:Hv.
  - destruct (Z.le_gt_cases
                (middleware.Since (reading ip) (middleware.lastReset v))
                (10 * middleware.Minute)) as [Hkeep|Hdrop].
    + now rewrite (proj2 (Hlookup ip v) (conj Hv Hkeep)).
    + assert (Hnone : middleware.visitors (middleware.cleanup rl reading) !! ip = None).
      { destruct (middleware.visitors (middleware.cleanup rl reading) !! ip) as [v'|] eqn:E;
          [|reflexivity].
        apply Hlookup in E as [E1 E2]. rewrite Hv in E1. injection E1 as <-. lia. }
      rewrite Hnone. cbn [middleware.lastReset].
      pose proof (Sub_monotone _ _ (middleware.lastReset v) Hlater) as Hmono.
      unfold middleware.Since in *.
      destruct (Z.ltb_spec (middleware.window rl)
                  (middleware.Sub (middleware.at_since t) (middleware.lastReset v)));
        [|lia].
      now destruct (middleware.window rl
                    <? middleware.Sub (middleware.at_since t) (middleware.at_new t)).
  - assert (Hnone : middleware.visitors (middleware.cleanup rl reading) !! ip = None).
    { destruct (middleware.visitors (middleware.cleanup rl reading) !! ip) as [v'|] eqn:E;
        [|reflexivity].
      apply Hlookup in E as [E1 _]. congruence. }
    now rewrite Hnone.
Qed.

(** *** [RateLimit] and [CORS] *)

Lemma append_empty (s : string) : (s ++ "")%string = s.
Proof.
  induction s as [|c s IH]; [reflexivity|].
  change (String c (s ++ "")%string = String c s). now f_equal.
Qed.

Lemma client_ip_forwarded r p tail :
  Header_Get (http.Header (middleware.Base r)) "X-Forwarded-For" = p ++ tail ->
  p ++ tail <> "" ->
  strings.ContainsByte p "," = false ->
  (tail = "" \/ exists s', tail = String "," s') ->
  middleware.client_ip r = p.
Proof.
  intros Hh Hne Hp Htail. unfold middleware.client_ip. cbv zeta.
  rewrite Hh, (bool_decide_eq_true_2 _ Hne).
  destruct Htail as [-> | (s' & ->)].
  - rewrite append_empty. now rewrite (Split_no_sep _ _ Hp).
  - now rewrite (Split_app _ _ _ Hp).
Qed.

(** X25. [RateLimit] counts a request under the text before the first
    comma of its X-Forwarded-For header whenever that header is not
    empty, taken as it is, and not under the remote address: a request
    that names there an address without a bucket is let through when the
    limit is positive, whatever the buckets of other addresses hold. *)
Theorem RateLimit_counts_by_forwarded_header next r rw e rl t p tail :
  Header_Get (http.Header (middleware.Base r)) "X-Forwarded-For" = p ++ tail ->
  p ++ tail <> "" ->
  strings.ContainsByte p "," = false ->
  (tail = "" \/ exists s', tail = String "," s') ->
  middleware.client_ip r = p /\
  (middleware.visitors rl !! p = None ->
   0 < middleware.limit rl ->
   middleware.RateLimit next r rw e rl t
   = (next r rw e, snd (middleware.allow rl p t))).
Proof.
  intros Hh Hne Hp Htail.
  pose proof (client_ip_forwarded r p tail Hh Hne Hp Htail) as Hip.
  split; [exact Hip|].
  intros Hnone Hl. unfold middleware.RateLimit. cbv zeta. rewrite Hip.
  pose proof (allow_refills_first_aux rl p t (or_introl Hnone)) as Hok.
  destruct (middleware.allow rl p t) as [ok rl']. cbn in *.
  rewrite Hok. apply Z.ltb_lt in Hl. now rewrite Hl.
Qed.

(** X26. When the limiter refuses, [RateLimit] never reaches the next
    handler; on a response not yet started it answers 429 with
    Retry-After 60 and a JSON content type. *)
Theorem RateLimit_refuses_with_429 r rw e rl t :
  fst (middleware.allow rl (middleware.client_ip r) t) = false ->
  exists rw',
    (forall next,
       middleware.RateLimit next r rw e rl t
       = (rw', e, snd (middleware.allow rl (middleware.client_ip r) t))) /\
    (middleware.status rw = None ->
     middleware.status rw' = Some 429 /\
     middleware.sent rw' !! "Retry-After" = Some ["60"] /\
     middleware.sent rw' !! "Content-Type" = Some ["application/json"]).
Proof.
  intros Hno. unfold middleware.RateLimit. cbv zeta.
  destruct (middleware.allow rl (middleware.client_ip r) t) as [ok rl']. cbn in Hno.
  subst ok. cbn [negb fst snd]. eexists. split; [reflexivity|].
  intros Hs. unfold middleware.Write, middleware.WriteHeader, middleware.Header_Set.
  cbn. rewrite Hs. cbn.
  change (textproto.CanonicalMIMEHeaderKey "Retry-After") with "Retry-After".
  change (textproto.CanonicalMIMEHeaderKey "Content-Type") with "Content-Type".
  rewrite lookup_insert_eq, lookup_insert_ne, lookup_insert_eq by discriminate. auto.
Qed.


End Validator.

(** ** The scenarios, run

    The theorems above, applied to the validator of [Scenario]: its cache
    holds [k1], the clock reads 1000, and nothing has been fetched. *)

Local Abbreviation validate net :=
  (ValidateToken net Scenario.json Scenario.base64 Scenario.parse Scenario.verify).
Local Abbreviation refresh net :=
  (refreshPublicKeys net Scenario.json Scenario.base64).
Local Abbreviation scenario_run net :=
  (run net Scenario.json Scenario.base64 Scenario.parse Scenario.verify).

Local Ltac by_computation := vm_compute; reflexivity.

Local Ltac discharge :=
  first [ by_computation
        | cbn; lia
        | apply validateAudience_true; by_computation
        | intros ?; discriminate ].

(** Witness of C8: the first scenario of the specification. *)
Lemma ValidateToken_accepts_witness :
  exists claims,
    validate Scenario.down "rs256-k1.app.a1" Scenario.world
    = (inr claims,
       log_verify (jwt.Method Scenario.tok_app) Scenario.key1 Scenario.world) /\
    claims = jwt.Claims Scenario.tok_app /\
    Subject (Registered claims) = Subject (Registered (jwt.Claims Scenario.tok_app)) /\
    Email claims = Email (jwt.Claims Scenario.tok_app).
Proof.
  apply (ValidateToken_accepts Scenario.down Scenario.json Scenario.base64
           Scenario.parse Scenario.verify
           "rs256-k1.app.a1" Scenario.tok_app "RS256" "k1" Scenario.key1 Scenario.world);
    discharge.
Defined.

(** C8 as stated fails: a PS256 token signed with the cached key [k1],
    valid in time, issuer and audience, is rejected, because its signing
    method is not the [SigningMethodRSA] that the key function asks for. *)
Lemma ValidateToken_rejects_PS256 :
  Scenario.parse "ps256-k1.app.a1" = inr Scenario.tok_ps256 /\
  jwt.Header Scenario.tok_ps256 !! "kid" = Some (AnyString "k1") /\
  publicKeys (ka Scenario.world) !! "k1" = Some Scenario.key1 /\
  signature_verifies Scenario.verify "ps256-k1.app.a1" Scenario.tok_ps256 Scenario.key1 /\
  not_expired (Registered (jwt.Claims Scenario.tok_ps256)) (now Scenario.world) /\
  not_before_satisfied (Registered (jwt.Claims Scenario.tok_ps256)) (now Scenario.world) /\
  Issuer (Registered (jwt.Claims Scenario.tok_ps256)) = expectedIssuer (ka Scenario.world) /\
  audience_accepted (ka Scenario.world) (Audience (Registered (jwt.Claims Scenario.tok_ps256))) /\
  validate Scenario.down "ps256-k1.app.a1" Scenario.world
  = (inl (ErrParseToken (ErrTokenUnverifiable
            (ErrUnexpectedSigningMethod (Some (AnyString "PS256"))))),
     Scenario.world).
Proof. repeat split; discharge. Qed.

(** Witness of C6: an HS256 token that names the cached key [k1]. *)
Lemma ValidateToken_rejects_other_algorithms_witness :
  publicKeys (ka Scenario.world) !! "k1" = Some Scenario.key1 /\
  validate Scenario.down "hs256-k1.app.a1" Scenario.world
  = (inl (ErrParseToken (ErrTokenUnverifiable
            (ErrUnexpectedSigningMethod (jwt.Header Scenario.tok_hs256 !! "alg")))),
     Scenario.world).
Proof.
  split; [reflexivity|].
  apply (ValidateToken_rejects_other_algorithms Scenario.down Scenario.json
           Scenario.base64 Scenario.parse Scenario.verify
           "hs256-k1.app.a1" Scenario.tok_hs256 Scenario.world);
    discharge.
Defined.

(** Witness of C5: the issuer with a trailing slash is not the issuer. *)
Lemma ValidateToken_rejects_wrong_issuer_witness :
  fst (validate Scenario.down "rs256-k1.slash.a1" Scenario.world)
  = inl (ErrInvalidIssuer "https://id.example.org/realms/payforward"
                          "https://id.example.org/realms/payforward/").
Proof.
  refine (proj2 (ValidateToken_rejects_wrong_issuer Scenario.down Scenario.json
                   Scenario.base64 Scenario.parse Scenario.verify
                   "rs256-k1.slash.a1" Scenario.tok_slash Scenario.world _ _)
                "RS256" "k1" Scenario.key1 _ _ _ _ _ _);
    discharge.
Defined.

(** Witness of C4: the second scenario of the specification, audience
    [other-app]. *)
Lemma ValidateToken_rejects_foreign_audience_witness :
  fst (validate Scenario.down "rs256-k1.other-app.a1" Scenario.world)
  = inl ErrInvalidAudience.
Proof.
  refine (proj2 (proj2 (ValidateToken_rejects_foreign_audience Scenario.down
                   Scenario.json Scenario.base64 Scenario.parse Scenario.verify
                   "rs256-k1.other-app.a1" Scenario.tok_other_app Scenario.world _ _))
                "RS256" "k1" Scenario.key1 _ _ _ _ _ _ _);
    try discharge.
  intros H. apply validateAudience_true in H. vm_compute in H. discriminate.
Defined.

(** Witness of C1: the key [k2] is not cached, the provider serves it
    (after an entry that does not parse), and the token is accepted after
    one request. *)
Lemma ValidateToken_unknown_kid_refreshes_once_witness :
  publicKeys (ka Scenario.world) !! "k2" = None /\
  requests (snd (validate (Scenario.serve 200 "jwks:k3,k2") "rs256-k2.app.ff" Scenario.world))
  = [Scenario.certs] /\
  verified (snd (validate (Scenario.serve 200 "jwks:k3,k2") "rs256-k2.app.ff" Scenario.world))
  = [(jwt.SigningMethodRSA "RS256", Scenario.key2)] /\
  fst (validate (Scenario.serve 200 "jwks:k3,k2") "rs256-k2.app.ff" Scenario.world)
  = inr (jwt.Claims Scenario.tok_k2).
Proof.
  pose proof (proj1 (ValidateToken_unknown_kid_refreshes_once
                       (Scenario.serve 200 "jwks:k3,k2") Scenario.json Scenario.base64
                       Scenario.parse Scenario.verify
                       "rs256-k2.app.ff" Scenario.tok_k2 Scenario.world eq_refl)
                    "RS256" "k2" eq_refl eq_refl eq_refl) as H.
  cbv zeta in H. destruct H as (Hreq & _ & H).
  assert (E1 : fst (refresh (Scenario.serve 200 "jwks:k3,k2") Scenario.world) = inr tt)
    by by_computation.
  assert (E2 : publicKeys (ka (snd (refresh (Scenario.serve 200 "jwks:k3,k2") Scenario.world)))
               !! "k2" = Some Scenario.key2)
    by by_computation.
  rewrite E1, E2 in H. destruct H as (_ & Hver & Hacc).
  split; [reflexivity|]. split; [exact Hreq|]. split; [exact Hver|].
  apply Hacc; discharge.
Defined.

(** C1 as stated fails in two ways.  An HS256 token that names the
    uncached [k2] is rejected without any refresh, although the provider
    would serve [k2]; and when the provider is unreachable, an RS256
    token that names [k2] fails with the refresh error, not with the
    key-not-found error. *)
Lemma ValidateToken_unknown_kid_other_outcomes :
  publicKeys (ka Scenario.world) !! "k2" = None /\
  jwt.Header Scenario.tok_hs256_k2 !! "kid" = Some (AnyString "k2") /\
  validate (Scenario.serve 200 "jwks:k2") "hs256-k2.app.ff" Scenario.world
  = (inl (ErrParseToken (ErrTokenUnverifiable
            (ErrUnexpectedSigningMethod (Some (AnyString "HS256"))))),
     Scenario.world) /\
  requests Scenario.world = [] /\
  jwt.Header Scenario.tok_k2 !! "kid" = Some (AnyString "k2") /\
  validate Scenario.down "rs256-k2.app.ff" Scenario.world
  = (inl (ErrParseToken (ErrTokenUnverifiable
            (ErrRefreshKeys (ErrFetchJWKS ErrHTTP)))),
     log_request Scenario.certs Scenario.world).
Proof. repeat split; by_computation. Qed.

(** Witness of C3's theorem: the provider answers HTTP 500 with a body
    that decodes; the refresh reports success and installs [k2]. *)
Lemma refreshPublicKeys_ignores_status_witness :
  fst (refresh (Scenario.serve 500 "jwks:k3,k2") Scenario.world) = inr tt /\
  publicKeys (ka (snd (refresh (Scenario.serve 500 "jwks:k3,k2") Scenario.world)))
  = install_keys Scenario.base64 (Keys {| Keys := [Scenario.jwk3; Scenario.jwk2] |})
                 (publicKeys (ka Scenario.world)).
Proof.
  apply (refreshPublicKeys_ignores_status (Scenario.serve 500 "jwks:k3,k2")
           Scenario.json Scenario.base64 Scenario.world
           {| http.StatusCode := 500; http.Body := "jwks:k3,k2" |}
           {| Keys := [Scenario.jwk3; Scenario.jwk2] |});
    by_computation.
Defined.

(** Witness of X1: the provider is
    unreachable, the cache still holds [k1], the first token validates. *)
Lemma refreshPublicKeys_failure_is_atomic_witness :
  ka (snd (refresh Scenario.down Scenario.world)) = ka Scenario.world /\
  fst (validate Scenario.down "rs256-k1.app.a1" (snd (refresh Scenario.down Scenario.world)))
  = inr (jwt.Claims Scenario.tok_app).
Proof.
  destruct (refreshPublicKeys_failure_is_atomic Scenario.down Scenario.json
              Scenario.base64 Scenario.parse Scenario.verify
              Scenario.world (ErrFetchJWKS ErrHTTP) eq_refl) as (Hka & Hsame).
  split; [exact Hka|].
  rewrite (Hsame "rs256-k1.app.a1" Scenario.tok_app "RS256" "k1" Scenario.key1);
    by_computation.
Defined.

(** Witness of X2: [jwk3] does not parse, [jwk2]
    after it is installed. *)
Lemma refreshPublicKeys_installs_every_parsable_entry_witness :
  is_Some (publicKeys (ka (snd (refresh (Scenario.serve 200 "jwks:k3,k2") Scenario.world)))
             !! Kid Scenario.jwk2).
Proof.
  apply (refreshPublicKeys_installs_every_parsable_entry
           (Scenario.serve 200 "jwks:k3,k2") Scenario.json Scenario.base64
           Scenario.world
           {| http.StatusCode := 200; http.Body := "jwks:k3,k2" |}
           {| Keys := [Scenario.jwk3; Scenario.jwk2] |} Scenario.jwk2 Scenario.key2);
    try by_computation.
  right. left. reflexivity.
Defined.

Example jwk3_does_not_parse :
  parseRSAPublicKey Scenario.base64 Scenario.jwk3 = inl ErrBase64 /\
  parseRSAPublicKey Scenario.base64 Scenario.jwk2 = inr Scenario.key2.
Proof. split; by_computation. Qed.

Lemma provider_stopped_advertising_k1 :
  stopped_advertising (Scenario.serve 200 "jwks:k2") Scenario.json "k1" 0.
Proof.
  intros n url resp jwks _ [= <-]. simpl.
  change (Scenario.json "jwks:k2") with (@inr error _ {| Keys := [Scenario.jwk2] |}).
  intros [= <-]. simpl. intros [H | []]. discriminate.
Qed.

(** Witness of C10: the provider serves [k2] only; after the run
    [Scenario.later] the key [k1] is still cached and the first token
    still validates. *)
Lemma key_cache_only_grows_witness :
  publicKeys (ka (scenario_run (Scenario.serve 200 "jwks:k2") Scenario.later Scenario.world))
    !! "k1" = Some Scenario.key1 /\
  validate (Scenario.serve 200 "jwks:k2") "rs256-k1.app.a1"
    (scenario_run (Scenario.serve 200 "jwks:k2") Scenario.later Scenario.world)
  = (inr (jwt.Claims Scenario.tok_app),
     log_verify (jwt.Method Scenario.tok_app) Scenario.key1
       (scenario_run (Scenario.serve 200 "jwks:k2") Scenario.later Scenario.world)).
Proof.
  pose proof (key_cache_only_grows (Scenario.serve 200 "jwks:k2") Scenario.json
                Scenario.base64 Scenario.parse Scenario.verify
                Scenario.later Scenario.world "k1" Scenario.key1 eq_refl) as H.
  cbv zeta in H. destruct H as (_ & _ & H).
  destruct (H provider_stopped_advertising_k1) as (Hkey & Hval).
  split; [exact Hkey|].
  apply (Hval "rs256-k1.app.a1" Scenario.tok_app "RS256"); discharge.
Defined.

(** C2 as stated fails: a request with two Authorization headers is
    served from the first one. *)
Lemma ExtractBearerToken_two_headers :
  http.Header Scenario.two_headers !! "Authorization" = Some ["Bearer abc"; "Bearer def"] /\
  ExtractBearerToken Scenario.validator Scenario.two_headers = inr "abc".
Proof. split; by_computation. Qed.

(** The other shapes the specification lists are errors: no header, the
    scheme [Token], a lower-case scheme, two spaces, two tokens. *)
Example ExtractBearerToken_refusals :
  ExtractBearerToken Scenario.validator {| http.Header := ∅ |} = inl ErrAuthHeaderNotFound /\
  ExtractBearerToken Scenario.validator (Scenario.one_header "Token abc123")
  = inl ErrAuthHeaderFormat /\
  ExtractBearerToken Scenario.validator (Scenario.one_header "bearer abc")
  = inl ErrAuthHeaderFormat /\
  ExtractBearerToken Scenario.validator (Scenario.one_header "Bearer  abc")
  = inl ErrAuthHeaderFormat /\
  ExtractBearerToken Scenario.validator (Scenario.one_header "Bearer abc def")
  = inl ErrAuthHeaderFormat /\
  ExtractBearerToken Scenario.validator (Scenario.one_header "Bearer abc") = inr "abc".
Proof. repeat split; by_computation. Qed.

Example HasRole_scenario :
  HasRole Scenario.validator (Scenario.claims Scenario.issuer []) "user" = true /\
  HasRole Scenario.validator (Scenario.claims Scenario.issuer []) "editor" = true /\
  HasRole Scenario.validator (Scenario.claims Scenario.issuer []) "admin" = false.
Proof. repeat split; by_computation. Qed.

Example canonical_keys :
  textproto.CanonicalMIMEHeaderKey "Authorization" = "Authorization" /\
  textproto.CanonicalMIMEHeaderKey "content-type" = "Content-Type" /\
  textproto.CanonicalMIMEHeaderKey "x forwarded" = "x forwarded".
Proof. repeat split; by_computation. Qed.

Example Split_examples :
  strings.Split "Bearer abc" " " = ["Bearer"; "abc"] /\
  strings.Split "a  b" " " = ["a"; ""; "b"] /\
  strings.Split "" " " = [""].
Proof. repeat split; by_computation. Qed.

Example Int64_wraps :
  Int64 65537 = 65537 /\ Int64 (2 ^ 63) = - 2 ^ 63 /\ Int64 (2 ^ 64 + 3) = 3 /\
  SetBytes [Byte.x01; Byte.x00; Byte.x01] = 65537.
Proof. repeat split; by_computation. Qed.


(** ** The rest of the code, run *)

Local Abbreviation authenticate :=
  (Authenticate Scenario.down Scenario.json Scenario.base64 Scenario.parse Scenario.verify).
Local Abbreviation user_info code body :=
  (GetUserInfo unit Requests.new_request (Requests.answer code body) Requests.json_object).

(** Witness of X3: [k2] is listed twice, around an entry that does not
    parse; the cache holds the key of the second entry. *)
Lemma refreshPublicKeys_last_entry_wins_witness :
  publicKeys (ka (snd (refreshPublicKeys (Scenario.serve 200 "jwks:k2,k3,k2'")
                         Requests.json Scenario.base64 Scenario.world)))
    !! "k2" = Some {| pk_N := 65537; pk_E := 65537 |}.
Proof.
  exact (refreshPublicKeys_last_entry_wins (Scenario.serve 200 "jwks:k2,k3,k2'")
           Requests.json Scenario.base64 Scenario.world
           {| http.StatusCode := 200; http.Body := "jwks:k2,k3,k2'" |}
           {| Keys := [Scenario.jwk2; Scenario.jwk3; Requests.jwk2'] |}
           eq_refl eq_refl "k2").
Defined.

(** Witness of X4. *)
Lemma refreshPublicKeys_idempotent_witness :
  fst (refresh (Scenario.serve 200 "jwks:k3,k2")
         (snd (refresh (Scenario.serve 200 "jwks:k3,k2") Scenario.world))) = inr tt /\
  ka (snd (refresh (Scenario.serve 200 "jwks:k3,k2")
             (snd (refresh (Scenario.serve 200 "jwks:k3,k2") Scenario.world))))
  = ka (snd (refresh (Scenario.serve 200 "jwks:k3,k2") Scenario.world)).
Proof.
  apply (refreshPublicKeys_idempotent (Scenario.serve 200 "jwks:k3,k2")
           Scenario.json Scenario.base64 Scenario.world
           {| http.StatusCode := 200; http.Body := "jwks:k3,k2" |}
           {| Keys := [Scenario.jwk3; Scenario.jwk2] |});
    by_computation.
Defined.

(** Witness of X7: the token of the first scenario. *)
Lemma ValidateToken_accepts_only_valid_tokens_witness :
  exists token alg kid key,
    Scenario.parse "rs256-k1.app.a1" = inr token /\
    jwt.Method token = jwt.SigningMethodRSA alg /\
    jwt.Header token !! "kid" = Some (AnyString kid) /\
    publicKeys (ka (log_verify (jwt.SigningMethodRSA "RS256") Scenario.key1 Scenario.world))
      !! kid = Some key /\
    signature_verifies Scenario.verify "rs256-k1.app.a1" token key /\
    not_expired (Registered (jwt.Claims token)) (now Scenario.world) /\
    not_before_satisfied (Registered (jwt.Claims token)) (now Scenario.world) /\
    Issuer (Registered (jwt.Claims token))
    = serverURL (ka Scenario.world) ++ "/realms/" ++ realm (ka Scenario.world) /\
    audience_accepted (ka Scenario.world) (Audience (Registered (jwt.Claims token))) /\
    Requests.alice = jwt.Claims token /\
    verified (log_verify (jwt.SigningMethodRSA "RS256") Scenario.key1 Scenario.world)
    = (jwt.Method token, key) :: verified Scenario.world /\
    requests (log_verify (jwt.SigningMethodRSA "RS256") Scenario.key1 Scenario.world)
    = match publicKeys (ka Scenario.world) !! kid with
      | Some _ => requests Scenario.world
      | None => certs_url (ka Scenario.world) :: requests Scenario.world
      end.
Proof.
  apply (ValidateToken_accepts_only_valid_tokens Scenario.down Scenario.json
           Scenario.base64 Scenario.parse Scenario.verify "rs256-k1.app.a1").
  by_computation.
Defined.

(** Witness of X8. *)
Lemma ValidateToken_requires_kid_witness :
  ValidateToken Scenario.down Scenario.json Scenario.base64 Requests.parse Scenario.verify
    "rs256.app.a1" Scenario.world
  = (inl (ErrParseToken (ErrTokenUnverifiable ErrKidMissing)), Scenario.world).
Proof.
  apply (ValidateToken_requires_kid Scenario.down Scenario.json Scenario.base64
           Requests.parse Scenario.verify "rs256.app.a1" Requests.tok_no_kid "RS256");
    try by_computation.
  intros kid. vm_compute. discriminate.
Defined.

(** Witness of X10: status 500 with a body that would decode. *)
Lemma GetUserInfo_rejects_other_status_witness :
  fst (user_info 500 "alice" tt "the-token" Scenario.world) = inl (UserInfoStatus 500).
Proof.
  apply (GetUserInfo_rejects_other_status unit Requests.new_request
           (Requests.answer 500 "alice") Requests.json_object tt "the-token" Scenario.world
           {| http.StatusCode := 500; http.Body := "alice" |});
    [reflexivity | reflexivity | discriminate].
Defined.

Example GetUserInfo_scenario :
  fst (user_info 200 "alice" tt "the-token" Scenario.world)
  = inr {[ "sub" := AnyString "alice-id" ]} /\
  fst (user_info 200 "<html>" tt "the-token" Scenario.world) = inl (UserInfoErr ErrJSON) /\
  requests (snd (user_info 200 "alice" tt "the-token" Scenario.world))
  = ["https://id.example.org/realms/payforward/protocol/openid-connect/userinfo"].
Proof. repeat split; by_computation. Qed.

(** Witness of X12: the context already names another user. *)
Lemma Authenticate_identifies_user_witness :
  exists r',
    authenticate Requests.whoami (Requests.bearing "Bearer rs256-k1.app.a1")
      Requests.fresh Requests.env
    = Requests.whoami r' Requests.fresh
        {| middleware.world :=
             log_verify (jwt.SigningMethodRSA "RS256") Scenario.key1 Scenario.world;
           middleware.logged := middleware.logged Requests.env |} /\
    middleware.Base r' = middleware.Base (Requests.bearing "Bearer rs256-k1.app.a1") /\
    middleware.Value (middleware.Ctx r') middleware.UserIDKey
    = Some (middleware.VString (Subject (Registered Requests.alice))) /\
    middleware.Value (middleware.Ctx r') middleware.EmailKey
    = Some (middleware.VString (Email Requests.alice)) /\
    middleware.Value (middleware.Ctx r') "keycloak_claims"
    = Some (middleware.VClaims Requests.alice) /\
    forall key,
      key <> middleware.UserIDKey -> key <> middleware.EmailKey ->
      key <> "keycloak_claims" ->
      middleware.Value (middleware.Ctx r') key
      = middleware.Value (middleware.Ctx (Requests.bearing "Bearer rs256-k1.app.a1")) key.
Proof.
  apply (Authenticate_identifies_user Scenario.down Scenario.json Scenario.base64
           Scenario.parse Scenario.verify Requests.whoami
           (Requests.bearing "Bearer rs256-k1.app.a1") Requests.fresh Requests.env
           "rs256-k1.app.a1");
    by_computation.
Defined.

(** Witness of X13: a request without Authorization header. *)
Lemma Authenticate_rejects_with_401_witness :
  exists message e',
    (forall next,
       authenticate next Requests.anonymous Requests.fresh Requests.env
       = (middleware.respondJSONError Requests.fresh middleware.StatusUnauthorized message,
          e')) /\
    (message = "Missing or invalid authorization header" \/
     message = "Invalid or expired token") /\
    (middleware.status Requests.fresh = None ->
     middleware.status
       (middleware.respondJSONError Requests.fresh middleware.StatusUnauthorized message)
     = Some 401 /\
     middleware.sent
       (middleware.respondJSONError Requests.fresh middleware.StatusUnauthorized message)
       !! "Content-Type" = Some ["application/json"] /\
     middleware.body
       (middleware.respondJSONError Requests.fresh middleware.StatusUnauthorized message)
     = middleware.body Requests.fresh ++ "{" ++ middleware.dq ++ "success" ++ middleware.dq
         ++ ":false," ++ middleware.dq ++ "error" ++ middleware.dq ++ ":"
         ++ middleware.dq ++ message ++ middleware.dq ++ "}").
Proof.
  apply (Authenticate_rejects_with_401 Scenario.down Scenario.json Scenario.base64
           Scenario.parse Scenario.verify Requests.anonymous Requests.fresh Requests.env).
  intros tokenString H. vm_compute in H. discriminate.
Defined.

(** Witness of X14: the token holds the client role [editor]. *)
Lemma Authenticate_then_RequireRole_witness :
  authenticate (RequireRole "editor" Requests.whoami)
    (Requests.bearing "Bearer rs256-k1.app.a1") Requests.fresh Requests.env
  = if HasRole (ka (middleware.world Requests.env)) Requests.alice "editor"
    then Requests.whoami
           (middleware.WithContext (Requests.bearing "Bearer rs256-k1.app.a1")
              (middleware.authenticated
                 (middleware.Ctx (Requests.bearing "Bearer rs256-k1.app.a1"))
                 Requests.alice))
           Requests.fresh
           {| middleware.world :=
                log_verify (jwt.SigningMethodRSA "RS256") Scenario.key1 Scenario.world;
              middleware.logged := middleware.logged Requests.env |}
    else (middleware.respondJSONError Requests.fresh middleware.StatusForbidden
            "Insufficient permissions",
          {| middleware.world :=
               log_verify (jwt.SigningMethodRSA "RS256") Scenario.key1 Scenario.world;
             middleware.logged := middleware.logged Requests.env |}).
Proof.
  apply (Authenticate_then_RequireRole Scenario.down Scenario.json Scenario.base64
           Scenario.parse Scenario.verify "editor" Requests.whoami
           (Requests.bearing "Bearer rs256-k1.app.a1") Requests.fresh Requests.env
           "rs256-k1.app.a1");
    by_computation.
Defined.

(** The middleware end to end: the user is named from the token, a role
    held under another client is refused with 403, a missing header with
    401, and [OptionalAuth] lets the anonymous request through. *)
Example middleware_scenarios :
  middleware.body (fst (authenticate Requests.whoami
                          (Requests.bearing "Bearer rs256-k1.app.a1")
                          Requests.fresh Requests.env)) = "alice-id" /\
  middleware.status (fst (authenticate (RequireRole "admin" Requests.whoami)
                            (Requests.bearing "Bearer rs256-k1.app.a1")
                            Requests.fresh Requests.env)) = Some 403 /\
  middleware.status (fst (authenticate Requests.whoami Requests.anonymous
                            Requests.fresh Requests.env)) = Some 401 /\
  middleware.body (fst (OptionalAuth Scenario.down Scenario.json Scenario.base64
                          Scenario.parse Scenario.verify Requests.whoami
                          Requests.anonymous Requests.fresh Requests.env)) = "nobody" /\
  middleware.body (fst (OptionalAuth Scenario.down Scenario.json Scenario.base64
                          Scenario.parse Scenario.verify Requests.whoami
                          (Requests.bearing "Bearer rs256-k1.other-app.a1")
                          Requests.fresh Requests.env)) = "someone-else".
Proof. repeat split; by_computation. Qed.

(** ** The rate limiter, run *)

Local Ltac each_call :=
  let t := fresh "t" in
  let H := fresh "H" in
  intros t H; cbn in H;
  repeat (destruct H as [H|H]; [injection H as <-; vm_compute; intuition discriminate|]);
  destruct H.

(** Witness of X20: three requests within the window against a bucket
    of two tokens; two are granted. *)
Lemma allow_all_spends_the_bucket_witness :
  middleware.granted "10.0.0.7:4242"
    (Requests.calls_at "10.0.0.7:4242" [1; 2; 3])
    (fst (middleware.allow_all (Requests.with_tokens 2)
            (Requests.calls_at "10.0.0.7:4242" [1; 2; 3])))
  = Z.min 2 3.
Proof.
  apply (allow_all_spends_the_bucket
           (Requests.calls_at "10.0.0.7:4242" [1; 2; 3])
           (Requests.with_tokens 2) "10.0.0.7:4242"
           {| middleware.tokens := 2; middleware.lastReset := 0 |});
    [by_computation | cbn; lia | each_call].
Defined.

(** Witness of X21: the empty bucket of the address, asked again after
    more than a minute. *)
Lemma allow_refills_first_witness :
  fst (middleware.allow Requests.spent "10.0.0.7:4242"
         (Requests.at_instant (61 * Requests.second))) = true /\
  exists v',
    middleware.visitors
      (snd (middleware.allow Requests.spent "10.0.0.7:4242"
              (Requests.at_instant (61 * Requests.second))))
      !! "10.0.0.7:4242" = Some v' /\
    middleware.tokens v' = 1.
Proof.
  apply (allow_refills_first Requests.spent "10.0.0.7:4242"
           (Requests.at_instant (61 * Requests.second))).
  right. exists {| middleware.tokens := 0; middleware.lastReset := 0 |}.
  split; by_computation.
Defined.

(** Witness of X22: a limiter made for no request a minute. *)
Lemma NewRateLimiter_without_budget_witness :
  Forall (fun ok => ok = false)
    (fst (middleware.allow_all (middleware.NewRateLimiter 0)
            (Requests.calls_at "10.0.0.7:4242" [1; 2; 3]))).
Proof.
  apply (NewRateLimiter_without_budget 0 (Requests.calls_at "10.0.0.7:4242" [1; 2; 3])).
  lia.
Defined.

(** Witness of X23: five requests in the minute that starts at second
    59, against a bucket that is full but was last reset at instant 0:
    four are granted, twice the limit. *)
Lemma allow_all_burst_bound_witness :
  middleware.granted "10.0.0.7:4242"
    (Requests.calls_at "10.0.0.7:4242" [59; 60; 61; 62; 63])
    (fst (middleware.allow_all (Requests.with_tokens 2)
            (Requests.calls_at "10.0.0.7:4242" [59; 60; 61; 62; 63])))
  <= 2 * 2 /\
  (middleware.visitors (Requests.with_tokens 2) !! "10.0.0.7:4242" = None ->
   middleware.granted "10.0.0.7:4242"
     (Requests.calls_at "10.0.0.7:4242" [59; 60; 61; 62; 63])
     (fst (middleware.allow_all (Requests.with_tokens 2)
             (Requests.calls_at "10.0.0.7:4242" [59; 60; 61; 62; 63])))
   <= 2).
Proof.
  apply (allow_all_burst_bound (Requests.with_tokens 2) "10.0.0.7:4242"
           (59 * Requests.second)
           (Requests.calls_at "10.0.0.7:4242" [59; 60; 61; 62; 63])).
  - cbn; lia.
  - vm_compute; intuition discriminate.
  - intros v Hv. vm_compute in Hv. injection Hv as <-. cbn; lia.
  - each_call.
Defined.

(** Witness of X24: the bucket of the address, empty since instant 0, is
    cleaned up at minute 11; limit and window are as before, and the
    request that follows is granted, as it would have been without the
    clean-up. *)
Lemma cleanup_is_invisible_witness :
  middleware.limit (middleware.cleanup Requests.spent (fun _ => 660 * Requests.second))
  = middleware.limit Requests.spent /\
  middleware.window (middleware.cleanup Requests.spent (fun _ => 660 * Requests.second))
  = middleware.window Requests.spent /\
  middleware.visitors
    (middleware.cleanup Requests.spent (fun _ => 660 * Requests.second))
    !! "10.0.0.7:4242" = None /\
  fst (middleware.allow
         (middleware.cleanup Requests.spent (fun _ => 660 * Requests.second))
         "10.0.0.7:4242" (Requests.at_instant (661 * Requests.second)))
  = fst (middleware.allow Requests.spent "10.0.0.7:4242"
           (Requests.at_instant (661 * Requests.second))).
Proof.
  destruct (cleanup_is_invisible Requests.spent (fun _ => 660 * Requests.second))
    as (Hl & Hw & _ & Hsame).
  split; [exact Hl|]. split; [exact Hw|]. split; [by_computation|].
  apply Hsame; vm_compute; intuition discriminate.
Defined.

(** Witness of X25: the address whose bucket is empty sends a request
    that names another address first in X-Forwarded-For; the request
    reaches the handler. *)
Lemma RateLimit_counts_by_forwarded_header_witness :
  middleware.client_ip (Requests.forwarded_for "1.2.3.4, 10.0.0.1") = "1.2.3.4" /\
  (middleware.visitors Requests.spent !! "1.2.3.4" = None ->
   0 < middleware.limit Requests.spent ->
   middleware.RateLimit Requests.whoami (Requests.forwarded_for "1.2.3.4, 10.0.0.1")
     Requests.fresh Requests.env Requests.spent (Requests.at_instant Requests.second)
   = (Requests.whoami (Requests.forwarded_for "1.2.3.4, 10.0.0.1")
        Requests.fresh Requests.env,
      snd (middleware.allow Requests.spent "1.2.3.4"
             (Requests.at_instant Requests.second)))).
Proof.
  apply (RateLimit_counts_by_forwarded_header Requests.whoami
           (Requests.forwarded_for "1.2.3.4, 10.0.0.1")
           Requests.fresh Requests.env Requests.spent
           (Requests.at_instant Requests.second) "1.2.3.4" ", 10.0.0.1").
  - by_computation.
  - discriminate.
  - by_computation.
  - right. eexists. reflexivity.
Defined.

(** Witness of X26: the same address without the header, one second
    after its bucket was emptied. *)
Lemma RateLimit_refuses_with_429_witness :
  exists rw',
    (forall next,
       middleware.RateLimit next Requests.anonymous Requests.fresh Requests.env
         Requests.spent (Requests.at_instant Requests.second)
       = (rw', Requests.env,
          snd (middleware.allow Requests.spent
                 (middleware.client_ip Requests.anonymous)
                 (Requests.at_instant Requests.second)))) /\
    (middleware.status Requests.fresh = None ->
     middleware.status rw' = Some 429 /\
     middleware.sent rw' !! "Retry-After" = Some ["60"] /\
     middleware.sent rw' !! "Content-Type" = Some ["application/json"]).
Proof.
  apply (RateLimit_refuses_with_429 Requests.anonymous Requests.fresh Requests.env
           Requests.spent (Requests.at_instant Requests.second)).
  by_computation.
Defined.

(** The limiter and [CORS] on the requests above. *)
Example rate_limit_scenarios :
  (* the burst around a refill: four of five requests are granted *)
  fst (middleware.allow_all (Requests.with_tokens 2)
         (Requests.calls_at "10.0.0.7:4242" [59; 60; 61; 62; 63]))
  = [true; true; true; true; false] /\
  (* a listed origin is echoed, another one is not *)
  middleware.header
    (fst (middleware.CORS ["https://app.example"] Requests.whoami
            (Requests.from_origin "https://app.example") Requests.fresh Requests.env))
    !! "Access-Control-Allow-Origin" = Some ["https://app.example"] /\
  middleware.header
    (fst (middleware.CORS ["https://app.example"] Requests.whoami
            (Requests.from_origin "https://evil.example") Requests.fresh Requests.env))
    !! "Access-Control-Allow-Origin" = None.
Proof. repeat split; by_computation. Qed.
